(** * eval-hub: the model registry of [eval_hub/services/model_service.py]

    A shallow embedding of [ModelService] (the two registries, the
    environment scan, the CRUD surface and the listing) together with the
    construction contract of the NeMo backend executor, and the properties
    of the specification that concern them.

    Conventions of the embedding.
    - A Python [str] is a [string] holding its UTF-8 bytes.  The prefix,
      the suffix and the pattern the service matches are ASCII, so they
      are matched byte by byte.  [str.lower], [str.upper] and [str.strip]
      follow the Unicode tables; they are parameters of the development
      ([str_lower], [str_upper], [str_strip]), known on ASCII text, where
      they are the functions of [PyStr].
    - A Python [dict] is an insertion-ordered association list with unique
      keys ([Dict]).
    - [os.environ] is the list of its items in iteration order; an
      operation receives the snapshot it runs under as an argument.
    - [datetime.utcnow()] is read from a clock handed to every operation:
      [now k] is the value of the [k]-th reading made during the call.
    - A raised exception is an [Outcome]; the state returned with it is the
      state at the point of the [raise]. *)

From Stdlib Require Import String Ascii List Bool Arith ZArith Lia.
Import ListNotations.

Local Open Scope list_scope.
Local Open Scope string_scope.

(** ** Python strings *)

Module PyStr.

(** [str.lower] and [str.upper] on one ASCII character. *)
Definition lower_char (c : ascii) : ascii :=
  let n := nat_of_ascii c in
  if (Nat.leb 65 n && Nat.leb n 90)%bool then ascii_of_nat (n + 32) else c.

Definition upper_char (c : ascii) : ascii :=
  let n := nat_of_ascii c in
  if (Nat.leb 97 n && Nat.leb n 122)%bool then ascii_of_nat (n - 32) else c.

Fixpoint map_chars (f : ascii -> ascii) (s : string) : string :=
  match s with
  | EmptyString => EmptyString
  | String c s' => String (f c) (map_chars f s')
  end.

Definition ascii_lower (s : string) : string := map_chars lower_char s.
Definition ascii_upper (s : string) : string := map_chars upper_char s.

(** [str.isspace] on one ASCII character: TAB, LF, VT, FF, CR, the four
    separators 0x1c-0x1f and the space. *)
Definition is_space (c : ascii) : bool :=
  let n := nat_of_ascii c in
  ((Nat.leb 9 n && Nat.leb n 13) || (Nat.leb 28 n && Nat.leb n 31)
   || Nat.eqb n 32)%bool.

Fixpoint lstrip (s : string) : string :=
  match s with
  | EmptyString => EmptyString
  | String c s' => if is_space c then lstrip s' else s
  end.

Fixpoint rstrip (s : string) : string :=
  match s with
  | EmptyString => EmptyString
  | String c s' =>
      match rstrip s' with
      | EmptyString => if is_space c then EmptyString else String c EmptyString
      | r => String c r
      end
  end.

(** [s.strip()] on ASCII text *)
Definition ascii_strip (s : string) : string := rstrip (lstrip s).

(** The text is ASCII: every byte is below 128. *)
Fixpoint is_ascii (s : string) : bool :=
  match s with
  | EmptyString => true
  | String c s' => Nat.ltb (nat_of_ascii c) 128 && is_ascii s'
  end.

(** [not s] on a string *)
Definition is_empty (s : string) : bool :=
  match s with EmptyString => true | _ => false end.

(** [s.startswith(p)] *)
Definition startswith (p s : string) : bool := String.prefix p s.

(** [s.endswith(suf)]: some tail of [s] is [suf]. *)
Fixpoint endswith (suf s : string) : bool :=
  if String.eqb s suf then true
  else match s with
       | EmptyString => false
       | String _ s' => endswith suf s'
       end.

(** [s[n:]] *)
Fixpoint drop (n : nat) (s : string) : string :=
  match n, s with
  | O, _ => s
  | S n', String _ s' => drop n' s'
  | S _, EmptyString => EmptyString
  end.

(** [s[:n]] *)
Fixpoint take (n : nat) (s : string) : string :=
  match n, s with
  | S n', String c s' => String c (take n' s')
  | _, _ => EmptyString
  end.

Definition newline : ascii := ascii_of_nat 10.

(** The characters a regular-expression dot can run over from the start
    of [s]: everything before the first line feed. *)
Fixpoint first_line (s : string) : string :=
  match s with
  | EmptyString => EmptyString
  | String c s' =>
      if Ascii.eqb c newline then EmptyString else String c (first_line s')
  end.

(** Index of the last occurrence of [pat] in [s] ([pat] not empty). *)
Fixpoint rfind (pat s : string) : option nat :=
  match s with
  | EmptyString => None
  | String _ s' =>
      match rfind pat s' with
      | Some i => Some (S i)
      | None => if String.prefix pat s then Some 0 else None
      end
  end.

(** [c in s] for a character *)
Fixpoint contains_char (c : ascii) (s : string) : bool :=
  match s with
  | EmptyString => false
  | String d s' => Ascii.eqb c d || contains_char c s'
  end.

End PyStr.

(** ** Python dictionaries

    Keys are strings.  Iteration follows insertion order; assigning to a
    key that is present keeps its position, [del] removes the item. *)

Module Dict.

Definition t (V : Type) : Type := list (string * V).

Definition empty {V : Type} : t V := [].

(** [d.get(k)] *)
Fixpoint get {V : Type} (k : string) (d : t V) : option V :=
  match d with
  | [] => None
  | (k', v) :: d' => if String.eqb k k' then Some v else get k d'
  end.

(** [k in d] *)
Definition mem {V : Type} (k : string) (d : t V) : bool :=
  match get k d with Some _ => true | None => false end.

(** [d[k] = v] *)
Fixpoint set {V : Type} (k : string) (v : V) (d : t V) : t V :=
  match d with
  | [] => [(k, v)]
  | (k', v') :: d' =>
      if String.eqb k k' then (k', v) :: d' else (k', v') :: set k v d'
  end.

(** [del d[k]] for a key that is present; nothing to remove otherwise. *)
Fixpoint del {V : Type} (k : string) (d : t V) : t V :=
  match d with
  | [] => []
  | (k', v') :: d' =>
      if String.eqb k k' then d' else (k', v') :: del k d'
  end.

(** [d.values()] *)
Definition values {V : Type} (d : t V) : list V := map snd d.

Definition keys {V : Type} (d : t V) : list string := map fst d.

End Dict.

(** ** Exceptions and the process environment *)

(** The only exception the service raises is [ValueError(message)]. *)
Inductive Exn : Type :=
  | ValueError (message : string).

Inductive Outcome (A : Type) : Type :=
  | Return (a : A)
  | Raise (e : Exn).

Arguments Return {A} a.
Arguments Raise {A} e.

(** [os.environ.items()], in iteration order. *)
Definition Env : Type := list (string * string).

(** [os.getenv(key)] *)
Fixpoint getenv (env : Env) (key : string) : option string :=
  match env with
  | [] => None
  | (k, v) :: env' => if String.eqb key k then Some v else getenv env' key
  end.

(** [os.getenv(key, default)] *)
Definition getenv_default (env : Env) (key default : string) : string :=
  match getenv env key with
  | Some v => v
  | None => default
  end.

(** [datetime] values, and the readings of [datetime.utcnow()] that one
    call of an operation makes, in the order it makes them. *)
Definition Time : Type := Z.
Definition Clock : Type := nat -> Time.

(** ** The declarations of [eval_hub/models/model.py]

    [model_service.py] imports its data classes and enumerations from
    [..models.model], which is not among the sources.  What the service
    needs of the two enumerations and of the two configuration classes is
    taken as a parameter of the development: [ModelType_of_value s] is the
    call [ModelType(s)], [None] standing for its [ValueError];
    [OPENAI_COMPATIBLE] is the member the service falls back on, whose
    value the service's own warning gives as ['openai-compatible'];
    [ModelCapabilities_default] and [ModelConfig_default] are
    [ModelCapabilities()] and [ModelConfig()].

    With them come the three string methods of Python the service calls:
    [str_lower], [str_upper] and [str_strip] are [str.lower],
    [str.upper] and [str.strip] on any text; on ASCII text they are the
    functions computed in [PyStr], and [str.lower] maps no text but the
    empty one to the empty one. *)
Class ModelDecls : Type := {
  ModelType : Type;
  ModelType_of_value : string -> option ModelType;
  OPENAI_COMPATIBLE : ModelType;
  OPENAI_COMPATIBLE_value :
    ModelType_of_value "openai-compatible" = Some OPENAI_COMPATIBLE;
  ModelStatus : Type;
  ACTIVE : ModelStatus;
  ModelStatus_eq_dec : forall a b : ModelStatus, {a = b} + {a <> b};
  ModelCapabilities : Type;
  ModelCapabilities_default : ModelCapabilities;
  ModelConfig : Type;
  ModelConfig_default : ModelConfig;
  str_lower : string -> string;
  str_upper : string -> string;
  str_strip : string -> string;
  str_lower_ascii :
    forall s, PyStr.is_ascii s = true -> str_lower s = PyStr.ascii_lower s;
  str_upper_ascii :
    forall s, PyStr.is_ascii s = true -> str_upper s = PyStr.ascii_upper s;
  str_strip_ascii :
    forall s, PyStr.is_ascii s = true -> str_strip s = PyStr.ascii_strip s;
  str_lower_empty : forall s, str_lower s = "" -> s = ""
}.

Section Service.

Context {D : ModelDecls}.

(** The fields are those the constructor calls of [model_service.py]
    pass; [model_path] is the only one the service ever leaves [None]. *)
Record Model : Type := {
  model_id : string;
  model_name : string;
  description : string;
  model_type : ModelType;
  base_url : string;
  api_key_required : bool;
  model_path : option string;
  capabilities : ModelCapabilities;
  config : ModelConfig;
  status : ModelStatus;
  tags : list string;
  created_at : Time;
  updated_at : Time
}.

Record ModelSummary : Type := {
  sum_model_id : string;
  sum_model_name : string;
  sum_description : string;
  sum_model_type : ModelType;
  sum_base_url : string;
  sum_status : ModelStatus;
  sum_tags : list string;
  sum_created_at : Time
}.

Record ModelRegistrationRequest : Type := {
  req_model_id : string;
  req_model_name : string;
  req_description : string;
  req_model_type : ModelType;
  req_base_url : string;
  req_api_key_required : bool;
  req_model_path : option string;
  req_capabilities : option ModelCapabilities;
  req_config : option ModelConfig;
  req_status : ModelStatus;
  req_tags : list string
}.

(** Every field of an update request is optional; [None] is "not given". *)
Record ModelUpdateRequest : Type := {
  upd_model_name : option string;
  upd_description : option string;
  upd_model_type : option ModelType;
  upd_base_url : option string;
  upd_api_key_required : option bool;
  upd_model_path : option string;
  upd_capabilities : option ModelCapabilities;
  upd_config : option ModelConfig;
  upd_status : option ModelStatus;
  upd_tags : option (list string)
}.

Record ListModelsResponse : Type := {
  models : list ModelSummary;
  total_models : nat;
  runtime_models : list ModelSummary
}.

(** The attributes of a [ModelService] object ([settings] is never read). *)
Record ModelService : Type := {
  _registered_models : Dict.t Model;
  _runtime_models : Dict.t Model;
  _initialized : bool
}.

(** [ModelService(settings)] *)
Definition __init__ : ModelService :=
  {| _registered_models := Dict.empty;
     _runtime_models := Dict.empty;
     _initialized := false |}.

Definition is_active (m : Model) : bool :=
  if ModelStatus_eq_dec (status m) ACTIVE then true else false.

(** *** The environment scan *)

(** [re.match(r'EVAL_HUB_MODEL_(.+)_URL', env_var)] and its [group(1)].
    The match is anchored at the start only; the dot does not cross a line
    feed and the plus is greedy, so the group runs up to the last [_URL]
    of the first line that leaves it at least one character. *)
Definition re_match_group1 (env_var : string) : option string :=
  if PyStr.startswith "EVAL_HUB_MODEL_" env_var then
    match PyStr.first_line (PyStr.drop 15 env_var) with
    | EmptyString => None
    | String c rest =>
        match PyStr.rfind "_URL" rest with
        | Some i => Some (String c (PyStr.take i rest))
        | None => None
        end
    end
  else None.

(** [ModelType(model_type_str.lower())] with its [except ValueError]. *)
Definition parse_model_type (model_type_str : string) : ModelType :=
  match ModelType_of_value (str_lower model_type_str) with
  | Some t => t
  | None => OPENAI_COMPATIBLE
  end.

(** The guard of the loop and the match that follows it: the text of
    [match.group(1)] for a variable the loop goes on with, [None] for one
    it passes over. *)
Definition url_variable_group (env_var : string) : option string :=
  if PyStr.startswith "EVAL_HUB_MODEL_" env_var
     && PyStr.endswith "_URL" env_var
  then re_match_group1 env_var
  else None.

(** One turn of the loop of [_load_runtime_models] on the item
    [(env_var, env_value)]: the model it stores, or [None] when the turn
    ends in a [continue] or the guard fails.  [k] readings of the clock
    have been made before; a stored model costs two more. *)
Definition runtime_model_of (env : Env) (now : Clock) (k : nat)
    (env_var env_value : string) : option Model :=
  match url_variable_group env_var with
  | None => None
  | Some group1 =>
      let model_id := str_lower group1 in
      let base_url := str_strip env_value in
      if PyStr.is_empty base_url then None
      else
        let name_var := "EVAL_HUB_MODEL_" ++ group1 ++ "_NAME" in
        let type_var := "EVAL_HUB_MODEL_" ++ group1 ++ "_TYPE" in
        let path_var := "EVAL_HUB_MODEL_" ++ group1 ++ "_PATH" in
        let model_name :=
          getenv_default env name_var
            ("Runtime Model " ++ str_upper model_id) in
        let model_type_str :=
          getenv_default env type_var "openai-compatible" in
        let model_path := getenv env path_var in
        Some {| model_id := model_id;
                model_name := model_name;
                description := "Runtime-specified model: " ++ model_name;
                model_type := parse_model_type model_type_str;
                base_url := base_url;
                api_key_required := true;
                model_path := model_path;
                capabilities := ModelCapabilities_default;
                config := ModelConfig_default;
                status := ACTIVE;
                tags := ["runtime"];
                created_at := now k;
                updated_at := now (S k) |}
  end.

(** The loop over [os.environ.items()]: [items] are the items still to
    visit, [runtime_models] the local dictionary built so far. *)
Fixpoint scan_environ (env : Env) (now : Clock) (items : Env)
    (runtime_models : Dict.t Model) (k : nat) : Dict.t Model * nat :=
  match items with
  | [] => (runtime_models, k)
  | (env_var, env_value) :: items' =>
      match runtime_model_of env now k env_var env_value with
      | Some m =>
          scan_environ env now items'
            (Dict.set (model_id m) m runtime_models) (S (S k))
      | None => scan_environ env now items' runtime_models k
      end
  end.

Definition _load_runtime_models (env : Env) (now : Clock) (k : nat)
    (self : ModelService) : ModelService * nat :=
  let (runtime_models, k') := scan_environ env now env Dict.empty k in
  ({| _registered_models := _registered_models self;
      _runtime_models := runtime_models;
      _initialized := _initialized self |}, k').

Definition _initialize (env : Env) (now : Clock) (k : nat)
    (self : ModelService) : ModelService * nat :=
  if _initialized self then (self, k)
  else
    let (self', k') := _load_runtime_models env now k self in
    ({| _registered_models := _registered_models self';
        _runtime_models := _runtime_models self';
        _initialized := true |}, k').

(** *** The public operations

    Each takes the environment and the clock of the call and returns its
    outcome with the service as the call leaves it. *)

Definition already_exists (id : string) : Exn :=
  ValueError ("Model with ID '" ++ id ++ "' already exists").

Definition runtime_conflict (id : string) : Exn :=
  ValueError ("Model with ID '" ++ id
              ++ "' is specified as runtime model via environment variable").

Definition cannot_update : Exn :=
  ValueError "Cannot update runtime models specified via environment variables".

Definition cannot_delete : Exn :=
  ValueError "Cannot delete runtime models specified via environment variables".

Definition with_registered (d : Dict.t Model) (self : ModelService)
    : ModelService :=
  {| _registered_models := d;
     _runtime_models := _runtime_models self;
     _initialized := _initialized self |}.

Definition or_default {A : Type} (o : option A) (d : A) : A :=
  match o with Some a => a | None => d end.

(** The model that [register_model] builds at time [t]. *)
Definition model_of_request (request : ModelRegistrationRequest) (t : Time)
    : Model :=
  {| model_id := req_model_id request;
     model_name := req_model_name request;
     description := req_description request;
     model_type := req_model_type request;
     base_url := req_base_url request;
     api_key_required := req_api_key_required request;
     model_path := req_model_path request;
     capabilities :=
       or_default (req_capabilities request) ModelCapabilities_default;
     config := or_default (req_config request) ModelConfig_default;
     status := req_status request;
     tags := req_tags request;
     created_at := t;
     updated_at := t |}.

Definition register_model (env : Env) (now : Clock)
    (request : ModelRegistrationRequest) (self : ModelService)
    : Outcome Model * ModelService :=
  let (self, k) := _initialize env now 0 self in
  if Dict.mem (req_model_id request) (_registered_models self) then
    (Raise (already_exists (req_model_id request)), self)
  else if Dict.mem (req_model_id request) (_runtime_models self) then
    (Raise (runtime_conflict (req_model_id request)), self)
  else
    let model := model_of_request request (now k) in
    (Return model,
     with_registered
       (Dict.set (req_model_id request) model (_registered_models self))
       self).

(** The assignments of [update_model] on the stored model, at time [t]. *)
Definition apply_update (request : ModelUpdateRequest) (t : Time)
    (model : Model) : Model :=
  {| model_id := model_id model;
     model_name := or_default (upd_model_name request) (model_name model);
     description := or_default (upd_description request) (description model);
     model_type := or_default (upd_model_type request) (model_type model);
     base_url := or_default (upd_base_url request) (base_url model);
     api_key_required :=
       or_default (upd_api_key_required request) (api_key_required model);
     model_path :=
       match upd_model_path request with
       | Some p => Some p
       | None => model_path model
       end;
     capabilities :=
       or_default (upd_capabilities request) (capabilities model);
     config := or_default (upd_config request) (config model);
     status := or_default (upd_status request) (status model);
     tags := or_default (upd_tags request) (tags model);
     created_at := created_at model;
     updated_at := t |}.

Definition update_model (env : Env) (now : Clock) (id : string)
    (request : ModelUpdateRequest) (self : ModelService)
    : Outcome (option Model) * ModelService :=
  let (self, k) := _initialize env now 0 self in
  if Dict.mem id (_runtime_models self) then (Raise cannot_update, self)
  else
    match Dict.get id (_registered_models self) with
    | None => (Return None, self)
    | Some model =>
        let model := apply_update request (now k) model in
        (Return (Some model),
         with_registered (Dict.set id model (_registered_models self)) self)
    end.

Definition delete_model (env : Env) (now : Clock) (id : string)
    (self : ModelService) : Outcome bool * ModelService :=
  let (self, _) := _initialize env now 0 self in
  if Dict.mem id (_runtime_models self) then (Raise cannot_delete, self)
  else if Dict.mem id (_registered_models self) then
    (Return true,
     with_registered (Dict.del id (_registered_models self)) self)
  else (Return false, self).

Definition get_model_by_id (env : Env) (now : Clock) (id : string)
    (self : ModelService) : Outcome (option Model) * ModelService :=
  let (self, _) := _initialize env now 0 self in
  match Dict.get id (_registered_models self) with
  | Some model => (Return (Some model), self)
  | None => (Return (Dict.get id (_runtime_models self)), self)
  end.

Definition summary_of (model : Model) : ModelSummary :=
  {| sum_model_id := model_id model;
     sum_model_name := model_name model;
     sum_description := description model;
     sum_model_type := model_type model;
     sum_base_url := base_url model;
     sum_status := status model;
     sum_tags := tags model;
     sum_created_at := created_at model |}.

Definition registered_summaries (include_inactive : bool)
    (self : ModelService) : list ModelSummary :=
  map summary_of
    (filter (fun model => include_inactive || is_active model)
       (Dict.values (_registered_models self))).

Definition runtime_summaries (self : ModelService) : list ModelSummary :=
  map summary_of (Dict.values (_runtime_models self)).

Definition get_all_models (env : Env) (now : Clock) (include_inactive : bool)
    (self : ModelService) : Outcome ListModelsResponse * ModelService :=
  let (self, _) := _initialize env now 0 self in
  let all_summaries :=
    (registered_summaries include_inactive self
     ++ runtime_summaries self)%list in
  (Return {| models := all_summaries;
             total_models := length all_summaries;
             runtime_models := runtime_summaries self |}, self).

Definition reload_runtime_models (env : Env) (now : Clock)
    (self : ModelService) : Outcome unit * ModelService :=
  let cleared :=
    {| _registered_models := _registered_models self;
       _runtime_models := Dict.empty;
       _initialized := _initialized self |} in
  (Return tt, fst (_load_runtime_models env now 0 cleared)).

(** *** Sequences of calls

    [search_models] and [get_active_models] touch the service through
    [_initialize] only, which [OpInitialize] stands for. *)
Inductive Op : Type :=
  | OpInitialize
  | OpRegister (request : ModelRegistrationRequest)
  | OpUpdate (id : string) (request : ModelUpdateRequest)
  | OpDelete (id : string)
  | OpGet (id : string)
  | OpList (include_inactive : bool)
  | OpReload.

(** A call is made under the environment and the clock of its moment. *)
Record Call : Type := {
  call_env : Env;
  call_clock : Clock;
  call_op : Op
}.

Definition step (self : ModelService) (c : Call) : ModelService :=
  let env := call_env c in
  let now := call_clock c in
  match call_op c with
  | OpInitialize => fst (_initialize env now 0 self)
  | OpRegister request => snd (register_model env now request self)
  | OpUpdate id request => snd (update_model env now id request self)
  | OpDelete id => snd (delete_model env now id self)
  | OpGet id => snd (get_model_by_id env now id self)
  | OpList include_inactive =>
      snd (get_all_models env now include_inactive self)
  | OpReload => snd (reload_runtime_models env now self)
  end.

(** The service after the calls of [calls], made in order on a new one. *)
Definition run (calls : list Call) : ModelService :=
  fold_left step calls __init__.

(** How a field stands after an update: at the value given, or where it
    was when none is given. *)
Definition given_or_kept {A : Type} (given : option A) (old new : A) : Prop :=
  match given with
  | Some v => new = v
  | None => new = old
  end.

(** [id] is an identifier that a scan of [env] stores a model under. *)
Definition scanned (env : Env) (id : string) : Prop :=
  exists env_var env_value group1,
    In (env_var, env_value) env
    /\ url_variable_group env_var = Some group1
    /\ str_strip env_value <> ""
    /\ str_lower group1 = id.

(** [seen env now self] is the service an operation works on once its
    call of [_initialize] is over, [reading env now self] the number of
    clock readings made by then. *)
Definition seen (env : Env) (now : Clock) (self : ModelService)
    : ModelService :=
  fst (_initialize env now 0 self).

Definition reading (env : Env) (now : Clock) (self : ModelService) : nat :=
  snd (_initialize env now 0 self).

(** What holds of a service all of whose calls were made under [env]:
    the runtime identifiers are among those a scan of [env] finds, and
    are all of them once the service is initialised; no registered
    identifier is one of them. *)
Definition agrees_with (env : Env) (self : ModelService) : Prop :=
  (forall id, Dict.mem id (_runtime_models self) = true -> scanned env id)
  /\ (forall id,
        Dict.mem id (_registered_models self) = true -> ~ scanned env id)
  /\ (_initialized self = true ->
      forall id, scanned env id -> Dict.mem id (_runtime_models self) = true).

(** No identifier is a key of both dictionaries. *)
Definition registries_disjoint (self : ModelService) : Prop :=
  forall id,
    ~ (Dict.mem id (_registered_models self) = true
       /\ Dict.mem id (_runtime_models self) = true).

End Service.

(** ** Searching

    [search_models] compares enumeration members and tests them for
    truth ([if model_type and ...]); both depend on how the enumerations
    of [models/model.py] are declared, and are parameters like the rest:
    [ModelType_bool] and [ModelStatus_bool] are [bool(member)]. *)
Class SearchDecls (D : ModelDecls) : Type := {
  ModelType_eq_dec : forall a b : ModelType, {a = b} + {a <> b};
  ModelType_bool : ModelType -> bool;
  ModelStatus_bool : ModelStatus -> bool
}.

Section Search.

Context {D : ModelDecls} {S : SearchDecls D}.

(** [model.model_type != model_type] and [model.status != status] *)
Definition model_type_differs (a b : ModelType) : bool :=
  if ModelType_eq_dec a b then false else true.

Definition status_differs (a b : ModelStatus) : bool :=
  if ModelStatus_eq_dec a b then false else true.

(** [any(tag in model.tags for tag in tags)] *)
Definition any_tag_in (tags model_tags : list string) : bool :=
  existsb (fun tag => existsb (String.eqb tag) model_tags) tags.

(** [bool(tags)] for a list *)
Definition list_bool {A : Type} (l : list A) : bool :=
  match l with
  | [] => false
  | _ :: _ => true
  end.

(** One turn of the loop of [search_models]: [true] when the model is
    appended, [false] when one of the three tests ends in [continue].
    The three filters are the keyword arguments [model_type], [status]
    and [tags] of the source. *)
Definition search_keeps (type_filter : option ModelType)
    (status_filter : option ModelStatus) (tags_filter : option (list string))
    (model : Model) : bool :=
  if match type_filter with
     | Some t => ModelType_bool t && model_type_differs (model_type model) t
     | None => false
     end
  then false
  else if match status_filter with
          | Some st =>
              ModelStatus_bool st && status_differs (status model) st
          | None => false
          end
  then false
  else if match tags_filter with
          | Some ts => list_bool ts && negb (any_tag_in ts (tags model))
          | None => false
          end
  then false
  else true.

Definition search_models (env : Env) (now : Clock)
    (type_filter : option ModelType) (status_filter : option ModelStatus)
    (tags_filter : option (list string)) (self : ModelService)
    : Outcome (list Model) * ModelService :=
  let (self, _) := _initialize env now 0 self in
  let all_models :=
    (Dict.values (_registered_models self)
     ++ Dict.values (_runtime_models self))%list in
  (Return (filter (search_keeps type_filter status_filter tags_filter)
             all_models), self).

Definition get_active_models (env : Env) (now : Clock) (self : ModelService)
    : Outcome (list Model) * ModelService :=
  search_models env now None (Some ACTIVE) None self.

End Search.

(** ** Well-keyed services *)

Section Keys.

Context {D : ModelDecls}.

(** Every item of a dictionary of models sits under its [model_id]. *)
Definition keyed_by_id (d : Dict.t Model) : Prop :=
  Forall (fun item => model_id (snd item) = fst item) d.

Definition well_keyed (self : ModelService) : Prop :=
  NoDup (Dict.keys (_registered_models self))
  /\ NoDup (Dict.keys (_runtime_models self))
  /\ keyed_by_id (_registered_models self)
  /\ keyed_by_id (_runtime_models self).

End Keys.

(** ** Construction of the NeMo backend executor *)

Module Nemo.

(** The values a backend configuration bag holds. *)
Inductive Value : Type :=
  | VNone
  | VBool (b : bool)
  | VInt (n : Z)
  | VStr (s : string).

Definition BackendConfig : Type := Dict.t Value.

Record NemoEvaluatorExecutor : Type := {
  backend_config : BackendConfig;
  endpoint : string
}.

Definition missing_endpoint : Exn :=
  ValueError "NeMo Evaluator configuration missing required field: endpoint".

Definition empty_endpoint : Exn :=
  ValueError "NeMo Evaluator endpoint must be a non-empty string".

(** Modelled from the spec: the constructor of [NemoEvaluatorExecutor]
    ([eval_hub/executors/nemo.py], of which only the unit tests are
    among the sources).  The configuration bag is validated at
    construction: a bag without the required field [endpoint] fails
    with an error naming the field, an [endpoint] that is present but
    is not a non-empty string fails with the "must be non-empty" error;
    the two messages are those the tests match. *)
Definition new (config : BackendConfig) : Outcome NemoEvaluatorExecutor :=
  match Dict.get "endpoint" config with
  | None => Raise missing_endpoint
  | Some (VStr s) =>
      if PyStr.is_empty s then Raise empty_endpoint
      else Return {| backend_config := config; endpoint := s |}
  | Some _ => Raise empty_endpoint
  end.

(** [needle in haystack] on strings *)
Fixpoint is_substring (needle haystack : string) : bool :=
  if String.prefix needle haystack then true
  else match haystack with
       | EmptyString => false
       | String _ h' => is_substring needle h'
       end.

Definition message (e : Exn) : string :=
  match e with ValueError m => m end.

(** The fixture [backend_config] of the unit tests. *)
Definition fixture_config : BackendConfig :=
  [("endpoint", VStr "http://nemo.example.com");
   ("namespace", VStr "test");
   ("batch_size", VStr "1");
   ("log_samples", VBool true);
   ("deploy_crs", VBool false)].

End Nemo.

(** ** A concrete set of declarations, for running the service *)

Module Sample.

Inductive SampleType : Type := OpenAICompatible | HuggingFace.

Inductive SampleStatus : Type := Active | Inactive.

Definition sample_type_of_value (s : string) : option SampleType :=
  if String.eqb s "openai-compatible" then Some OpenAICompatible
  else if String.eqb s "huggingface" then Some HuggingFace
  else None.

Definition sample_status_eq_dec (a b : SampleStatus) : {a = b} + {a <> b}.
Proof. decide equality. Defined.

Definition ascii_lower_empty (s : string) :
  PyStr.ascii_lower s = "" -> s = "".
Proof. destruct s; [reflexivity|discriminate]. Defined.

Definition decls : ModelDecls :=
  {| ModelType := SampleType;
     ModelType_of_value := sample_type_of_value;
     OPENAI_COMPATIBLE := OpenAICompatible;
     OPENAI_COMPATIBLE_value := eq_refl;
     ModelStatus := SampleStatus;
     ACTIVE := Active;
     ModelStatus_eq_dec := sample_status_eq_dec;
     ModelCapabilities := unit;
     ModelCapabilities_default := tt;
     ModelConfig := unit;
     ModelConfig_default := tt;
     str_lower := PyStr.ascii_lower;
     str_upper := PyStr.ascii_upper;
     str_strip := PyStr.ascii_strip;
     str_lower_ascii := fun _ _ => eq_refl;
     str_upper_ascii := fun _ _ => eq_refl;
     str_strip_ascii := fun _ _ => eq_refl;
     str_lower_empty := ascii_lower_empty |}.

(** A clock whose readings advance by one, and one that stands still. *)
Definition ticking (t0 : Z) : Clock := fun k => (t0 + Z.of_nat k)%Z.
Definition frozen (t0 : Z) : Clock := fun _ => t0.

Definition request (id : string) (st : SampleStatus)
    : ModelRegistrationRequest (D := decls) :=
  {| req_model_id := id;
     req_model_name := "Model " ++ id;
     req_description := "registered";
     req_model_type := HuggingFace : @ModelType decls;
     req_base_url := "http://x";
     req_api_key_required := false;
     req_model_path := None;
     req_capabilities := None;
     req_config := None;
     req_status := st : @ModelStatus decls;
     req_tags := [] |}.

(** An update request that gives nothing. *)
Definition no_change : ModelUpdateRequest (D := decls) :=
  {| upd_model_name := None;
     upd_description := None;
     upd_model_type := None;
     upd_base_url := None;
     upd_api_key_required := None;
     upd_model_path := None;
     upd_capabilities := None;
     upd_config := None;
     upd_status := None;
     upd_tags := None |}.

Definition rename (n : string) : ModelUpdateRequest (D := decls) :=
  {| upd_model_name := Some n;
     upd_description := None;
     upd_model_type := None;
     upd_base_url := None;
     upd_api_key_required := None;
     upd_model_path := None;
     upd_capabilities := None;
     upd_config := None;
     upd_status := None;
     upd_tags := None |}.

Definition env_gpt4 : Env := [("EVAL_HUB_MODEL_GPT4_URL", "http://gpt4")].

Definition call (env : Env) (t0 : Z) (op : Op (D := decls))
    : Call (D := decls) :=
  {| call_env := env; call_clock := ticking t0; call_op := op |}.

End Sample.

(** ** Concrete comparison and truth of the sample enumerations *)

Module SampleSearch.

Definition sample_type_eq_dec (a b : Sample.SampleType) : {a = b} + {a <> b}.
Proof. decide equality. Defined.

(** Members whose values are non-empty strings: all of them are true. *)
Definition search_decls : SearchDecls Sample.decls :=
  {| ModelType_eq_dec :=
       sample_type_eq_dec
       : forall a b : @ModelType Sample.decls, {a = b} + {a <> b};
     ModelType_bool := fun _ => true;
     ModelStatus_bool := fun _ => true |}.

End SampleSearch.

(** ** Concrete environments, call sequences and services *)

Module Cases.

Import Sample.

(** Two case variants of one identifier, the second with siblings. *)
Definition env_two_cases : Env :=
  [("EVAL_HUB_MODEL_GPT4_URL", "http://a");
   ("EVAL_HUB_MODEL_gpt4_URL", "http://b");
   ("EVAL_HUB_MODEL_gpt4_NAME", "Foo");
   ("EVAL_HUB_MODEL_gpt4_PATH", "/p")].

(** A registration, then a reload under an environment that has gained
    a URL variable for the same identifier. *)
Definition register_then_reload : list (Call (D := decls)) :=
  [call [] 0 (OpRegister (request "gpt4" Active));
   call env_gpt4 10 OpReload].

Definition same_environ_calls : list (Call (D := decls)) :=
  [call env_gpt4 0 (OpRegister (request "gpt4" Active));
   call env_gpt4 10 (OpRegister (request "m1" Inactive));
   call env_gpt4 20 OpReload;
   call env_gpt4 30 (OpUpdate "m1" (rename "n"));
   call env_gpt4 40 (OpDelete "gpt4")].

(** The service with [m1] registered at time 5, nothing in the
    environment. *)
Definition with_m1 : ModelService (D := decls) :=
  snd (register_model [] (frozen 5) (request "m1" Active) __init__).

(** [gpt4] from the environment, [m1] active and [m2] inactive. *)
Definition mixed : ModelService (D := decls) :=
  run [call env_gpt4 0 (OpRegister (request "m1" Active));
       call env_gpt4 10 (OpRegister (request "m2" Inactive))].

End Cases.

Module MoreCases.

Import Sample.

(** The calls that make [Cases.mixed]. *)
Definition mixed_calls : list (Call (D := decls)) :=
  [call env_gpt4 0 (OpRegister (request "m1" Active));
   call env_gpt4 10 (OpRegister (request "m2" Inactive))].

(** [Cases.mixed] with [m3] registered at time 60. *)
Definition with_m3 : ModelService (D := decls) :=
  snd (register_model env_gpt4 (ticking 60) (request "m3" Active)
         Cases.mixed).

(** A new service reloaded under [env_gpt4] before any other call. *)
Definition reloaded_first : ModelService (D := decls) :=
  snd (reload_runtime_models env_gpt4 (ticking 0) __init__).

End MoreCases.

(** * Properties *)

(** ** Dictionaries *)

Module DictFacts.

Lemma get_set {V : Type} (k k' : string) (v : V) (d : Dict.t V) :
  Dict.get k (Dict.set k' v d)
  = if String.eqb k k' then Some v else Dict.get k d.
Proof.
  induction d as [|[k0 v0] d IH]; simpl.
  - reflexivity.
  - destruct (String.eqb k' k0) eqn:E0; simpl.
    + apply String.eqb_eq in E0; subst k0.
      destruct (String.eqb k k'); reflexivity.
    + rewrite IH.
      destruct (String.eqb k k0) eqn:E1; [|reflexivity].
      apply String.eqb_eq in E1; subst k0.
      destruct (String.eqb k k') eqn:E2; [|reflexivity].
      apply String.eqb_eq in E2; subst k'.
      rewrite String.eqb_refl in E0; discriminate.
Qed.

Lemma get_set_same {V : Type} (k : string) (v : V) (d : Dict.t V) :
  Dict.get k (Dict.set k v d) = Some v.
Proof. rewrite get_set, String.eqb_refl; reflexivity. Qed.

Lemma get_set_other {V : Type} (k k' : string) (v : V) (d : Dict.t V) :
  k <> k' -> Dict.get k (Dict.set k' v d) = Dict.get k d.
Proof.
  intros Hne; rewrite get_set.
  destruct (String.eqb k k') eqn:E; [|reflexivity].
  apply String.eqb_eq in E; contradiction.
Qed.

Lemma mem_set {V : Type} (k k' : string) (v : V) (d : Dict.t V) :
  Dict.mem k (Dict.set k' v d) = String.eqb k k' || Dict.mem k d.
Proof.
  unfold Dict.mem; rewrite get_set.
  destruct (String.eqb k k'); reflexivity.
Qed.

Lemma mem_get {V : Type} (k : string) (d : Dict.t V) :
  Dict.mem k d = true <-> exists v, Dict.get k d = Some v.
Proof.
  unfold Dict.mem; destruct (Dict.get k d) as [v|]; split.
  - intros _; exists v; reflexivity.
  - reflexivity.
  - discriminate.
  - intros [v Hv]; discriminate.
Qed.

Lemma get_del_other {V : Type} (k k' : string) (d : Dict.t V) :
  k <> k' -> Dict.get k (Dict.del k' d) = Dict.get k d.
Proof.
  intros Hne; induction d as [|[k0 v0] d IH]; simpl.
  - reflexivity.
  - destruct (String.eqb k' k0) eqn:E0; simpl.
    + apply String.eqb_eq in E0; subst k0.
      destruct (String.eqb k k') eqn:E; [|reflexivity].
      apply String.eqb_eq in E; contradiction.
    + rewrite IH; reflexivity.
Qed.

Lemma mem_del {V : Type} (k k' : string) (d : Dict.t V) :
  Dict.mem k (Dict.del k' d) = true -> Dict.mem k d = true.
Proof.
  unfold Dict.mem; induction d as [|[k0 v0] d IH]; simpl.
  - discriminate.
  - destruct (String.eqb k' k0) eqn:E0; simpl.
    + destruct (String.eqb k k0); [reflexivity|exact (fun H => H)].
    + destruct (String.eqb k k0); [reflexivity|exact IH].
Qed.

Lemma length_del {V : Type} (k : string) (d : Dict.t V) :
  Dict.mem k d = true -> S (length (Dict.del k d)) = length d.
Proof.
  unfold Dict.mem; induction d as [|[k0 v0] d IH]; simpl.
  - discriminate.
  - destruct (String.eqb k k0); simpl; [reflexivity|].
    intros H; rewrite (IH H); reflexivity.
Qed.

Lemma keys_set {V : Type} (k : string) (v : V) (d : Dict.t V) :
  Dict.keys (Dict.set k v d)
  = if Dict.mem k d then Dict.keys d else (Dict.keys d ++ [k])%list.
Proof.
  unfold Dict.mem; induction d as [|[k0 v0] d IH]; simpl.
  - reflexivity.
  - destruct (String.eqb k k0); simpl; [reflexivity|].
    rewrite IH; destruct (Dict.get k d); reflexivity.
Qed.

(** After [del d[k]] the key is gone, the keys being unique. *)
Lemma get_del_same {V : Type} (k : string) (d : Dict.t V) :
  NoDup (Dict.keys d) -> Dict.get k (Dict.del k d) = None.
Proof.
  induction d as [|[k0 v0] d IH]; simpl; intros Hnd.
  - reflexivity.
  - inversion Hnd as [|? ? Hnotin Hnd']; subst.
    destruct (String.eqb k k0) eqn:E; simpl.
    + apply String.eqb_eq in E; subst k0.
      destruct (Dict.get k d) as [v|] eqn:G; [|reflexivity].
      exfalso; apply Hnotin; clear -G.
      induction d as [|[k1 v1] d IH]; simpl in *; [discriminate|].
      destruct (String.eqb k k1) eqn:E1.
      * left; symmetry; apply String.eqb_eq; exact E1.
      * right; apply IH; exact G.
    + rewrite E; apply IH; exact Hnd'.
Qed.

End DictFacts.

Section Properties.

Context {D : ModelDecls}.

(** ** The environment scan *)

(** What every model built by a turn of the loop looks like. *)
Lemma runtime_model_of_inv (env : Env) (now : Clock) (k : nat)
    (env_var env_value : string) (m : Model) :
  runtime_model_of env now k env_var env_value = Some m ->
  exists group1,
    url_variable_group env_var = Some group1
    /\ str_strip env_value <> ""
    /\ m = {| model_id := str_lower group1;
              model_name :=
                getenv_default env ("EVAL_HUB_MODEL_" ++ group1 ++ "_NAME")
                  ("Runtime Model " ++ str_upper (str_lower group1));
              description :=
                "Runtime-specified model: "
                ++ getenv_default env
                     ("EVAL_HUB_MODEL_" ++ group1 ++ "_NAME")
                     ("Runtime Model " ++ str_upper (str_lower group1));
              model_type :=
                parse_model_type
                  (getenv_default env
                     ("EVAL_HUB_MODEL_" ++ group1 ++ "_TYPE")
                     "openai-compatible");
              base_url := str_strip env_value;
              api_key_required := true;
              model_path := getenv env ("EVAL_HUB_MODEL_" ++ group1 ++ "_PATH");
              capabilities := ModelCapabilities_default;
              config := ModelConfig_default;
              status := ACTIVE;
              tags := ["runtime"];
              created_at := now k;
              updated_at := now (S k) |}.
Proof.
  unfold runtime_model_of.
  destruct (url_variable_group env_var) as [g|]; [|discriminate].
  destruct (str_strip env_value) eqn:Es; simpl; [discriminate|].
  intros H; injection H as <-.
  exists g; repeat split; discriminate.
Qed.

(** A turn stores a model exactly when the variable passes the guard and
    the match and its value is not blank; the clock has no say in it. *)
Lemma runtime_model_of_some (env : Env) (now : Clock) (k : nat)
    (env_var env_value group1 : string) :
  url_variable_group env_var = Some group1 ->
  str_strip env_value <> "" ->
  exists m,
    runtime_model_of env now k env_var env_value = Some m
    /\ model_id m = str_lower group1.
Proof.
  intros Hg Hs; unfold runtime_model_of; rewrite Hg.
  destruct (str_strip env_value) eqn:Es; [contradiction|]; simpl.
  eexists; split; reflexivity.
Qed.

(** A property of the entries that every stored model has is a property
    of every entry of the dictionary the scan returns. *)
Lemma scan_environ_entries (P : string -> Model -> Prop)
    (env : Env) (now : Clock) (items : Env) :
  (forall k env_var env_value m,
      In (env_var, env_value) items ->
      runtime_model_of env now k env_var env_value = Some m ->
      P (model_id m) m) ->
  forall acc k,
    (forall id m, Dict.get id acc = Some m -> P id m) ->
    forall id m,
      Dict.get id (fst (scan_environ env now items acc k)) = Some m ->
      P id m.
Proof.
  induction items as [|[env_var env_value] items IH];
    intros Hbuilt acc k Hacc id m; simpl.
  - apply Hacc.
  - destruct (runtime_model_of env now k env_var env_value) as [m0|] eqn:E.
    + apply IH.
      * intros k' v' x' m' Hin; apply Hbuilt; right; exact Hin.
      * intros id' m'; rewrite DictFacts.get_set.
        destruct (String.eqb id' (model_id m0)) eqn:Eid.
        -- intros H; injection H as <-.
           apply String.eqb_eq in Eid; subst id'.
           apply (Hbuilt k env_var env_value); [left; reflexivity|exact E].
        -- apply Hacc.
    + apply IH.
      * intros k' v' x' m' Hin; apply Hbuilt; right; exact Hin.
      * exact Hacc.
Qed.

(** A key that is in the dictionary stays in it to the end of the scan. *)
Lemma scan_environ_keeps (env : Env) (now : Clock) (items : Env) :
  forall acc k id,
    Dict.mem id acc = true ->
    Dict.mem id (fst (scan_environ env now items acc k)) = true.
Proof.
  induction items as [|[env_var env_value] items IH]; intros acc k id H; simpl.
  - exact H.
  - destruct (runtime_model_of env now k env_var env_value) as [m0|].
    + apply IH; rewrite DictFacts.mem_set, H; apply orb_true_r.
    + apply IH; exact H.
Qed.

(** The keys the scan adds are the lowercased groups of the variables
    whose value is not blank. *)
Lemma scan_environ_mem (env : Env) (now : Clock) (items : Env) :
  forall acc k id,
    Dict.mem id (fst (scan_environ env now items acc k)) = true <->
    Dict.mem id acc = true
    \/ exists env_var env_value group1,
         In (env_var, env_value) items
         /\ url_variable_group env_var = Some group1
         /\ str_strip env_value <> ""
         /\ str_lower group1 = id.
Proof.
  induction items as [|[env_var env_value] items IH]; intros acc k id; simpl.
  - split; [intros H; left; exact H|].
    intros [H|(v & x & g & [] & _)]; exact H.
  - destruct (runtime_model_of env now k env_var env_value) as [m0|] eqn:E.
    + destruct (runtime_model_of_inv _ _ _ _ _ _ E) as (g0 & Hg0 & Hs0 & Hm0).
      assert (Hid0 : model_id m0 = str_lower g0) by (rewrite Hm0; reflexivity).
      rewrite IH, DictFacts.mem_set; split.
      * intros [H|(v & x & g & Hin & Hg & Hs & Hl)].
        -- apply orb_true_iff in H as [H|H]; [|left; exact H].
           apply String.eqb_eq in H; right.
           exists env_var, env_value, g0; repeat split; auto.
           congruence.
        -- right; exists v, x, g; repeat split; auto.
      * intros [H|(v & x & g & [Hin|Hin] & Hg & Hs & Hl)].
        -- left; rewrite H; apply orb_true_r.
        -- injection Hin as <- <-; left.
           assert (g = g0) by congruence; subst g.
           rewrite Hid0, Hl, String.eqb_refl; reflexivity.
        -- right; exists v, x, g; repeat split; auto.
    + rewrite IH; split.
      * intros [H|(v & x & g & Hin & Hg & Hs & Hl)]; [left; exact H|].
        right; exists v, x, g; repeat split; auto.
      * intros [H|(v & x & g & [Hin|Hin] & Hg & Hs & Hl)]; [left; exact H| |].
        -- injection Hin as <- <-.
           destruct (runtime_model_of_some env now k _ _ _ Hg Hs) as (m & Hm & _).
           congruence.
        -- right; exists v, x, g; repeat split; auto.
Qed.

(** ** Lazy initialisation *)

Lemma _initialize_done (env : Env) (now : Clock) (k : nat)
    (self : ModelService) :
  _initialized self = true -> _initialize env now k self = (self, k).
Proof. intros H; unfold _initialize; rewrite H; reflexivity. Qed.

Lemma _initialize_fresh (env : Env) (now : Clock) (k : nat)
    (self : ModelService) :
  _initialized self = false ->
  _initialize env now k self
  = ({| _registered_models := _registered_models self;
        _runtime_models := fst (scan_environ env now env Dict.empty k);
        _initialized := true |},
     snd (scan_environ env now env Dict.empty k)).
Proof.
  intros H; unfold _initialize, _load_runtime_models; rewrite H.
  destruct (scan_environ env now env Dict.empty k); reflexivity.
Qed.

Lemma _initialize_registered (env : Env) (now : Clock) (k : nat)
    (self : ModelService) :
  _registered_models (fst (_initialize env now k self))
  = _registered_models self.
Proof.
  destruct (_initialized self) eqn:E.
  - rewrite _initialize_done by exact E; reflexivity.
  - rewrite _initialize_fresh by exact E; reflexivity.
Qed.

Lemma _initialize_initialized (env : Env) (now : Clock) (k : nat)
    (self : ModelService) :
  _initialized (fst (_initialize env now k self)) = true.
Proof.
  destruct (_initialized self) eqn:E.
  - rewrite _initialize_done by exact E; exact E.
  - rewrite _initialize_fresh by exact E; reflexivity.
Qed.

Lemma reload_runtime_models_eq (env : Env) (now : Clock)
    (self : ModelService) :
  reload_runtime_models env now self
  = (Return tt,
     {| _registered_models := _registered_models self;
        _runtime_models := fst (scan_environ env now env Dict.empty 0);
        _initialized := _initialized self |}).
Proof.
  unfold reload_runtime_models, _load_runtime_models; simpl.
  destruct (scan_environ env now env Dict.empty 0); reflexivity.
Qed.

(** The runtime dictionary after the lazy initialisation is the one
    before it or the result of a scan of the environment. *)
Lemma _initialize_runtime (env : Env) (now : Clock) (k : nat)
    (self : ModelService) :
  _runtime_models (fst (_initialize env now k self))
  = if _initialized self then _runtime_models self
    else fst (scan_environ env now env Dict.empty k).
Proof.
  destruct (_initialized self) eqn:E.
  - rewrite _initialize_done by exact E; reflexivity.
  - rewrite _initialize_fresh by exact E; reflexivity.
Qed.

(** ** Sequences of calls *)

(** A property of the new service that every call of a kind keeps holds
    after any sequence of calls of that kind. *)
Lemma run_invariant_on (I : ModelService -> Prop) (K : Call -> Prop) :
  I __init__ ->
  (forall self c, K c -> I self -> I (step self c)) ->
  forall calls, Forall K calls -> I (run calls).
Proof.
  intros H0 Hstep calls; unfold run.
  generalize dependent (__init__).
  induction calls as [|c calls IH]; intros self Hself HK; simpl.
  - exact Hself.
  - inversion HK as [|? ? Hc Hcalls]; subst.
    apply IH; [apply Hstep; assumption|exact Hcalls].
Qed.

Lemma run_invariant (I : ModelService -> Prop) :
  I __init__ ->
  (forall self c, I self -> I (step self c)) ->
  forall calls, I (run calls).
Proof.
  intros H0 Hstep calls.
  apply (run_invariant_on I (fun _ => True)); auto.
  apply Forall_forall; auto.
Qed.

(** Whatever the call, it leaves the runtime dictionary alone or replaces
    it by a scan of its environment. *)
Lemma step_runtime (self : ModelService) (c : Call) :
  _runtime_models (step self c) = _runtime_models self
  \/ _runtime_models (step self c)
     = fst (scan_environ (call_env c) (call_clock c) (call_env c)
              Dict.empty 0).
Proof.
  assert (Hinit := _initialize_runtime (call_env c) (call_clock c) 0 self).
  unfold step.
  destruct (call_op c) as [|request|id request|id|id|b|].
  - rewrite Hinit; destruct (_initialized self); auto.
  - unfold register_model.
    destruct (_initialize (call_env c) (call_clock c) 0 self) as [s0 k0].
    simpl in Hinit.
    destruct (Dict.mem _ (_registered_models s0));
      [|destruct (Dict.mem _ (_runtime_models s0))];
      simpl; rewrite Hinit; destruct (_initialized self); auto.
  - unfold update_model.
    destruct (_initialize (call_env c) (call_clock c) 0 self) as [s0 k0].
    simpl in Hinit.
    destruct (Dict.mem _ (_runtime_models s0));
      [|destruct (Dict.get _ (_registered_models s0))];
      simpl; rewrite Hinit; destruct (_initialized self); auto.
  - unfold delete_model.
    destruct (_initialize (call_env c) (call_clock c) 0 self) as [s0 k0].
    simpl in Hinit.
    destruct (Dict.mem _ (_runtime_models s0));
      [|destruct (Dict.mem _ (_registered_models s0))];
      simpl; rewrite Hinit; destruct (_initialized self); auto.
  - unfold get_model_by_id.
    destruct (_initialize (call_env c) (call_clock c) 0 self) as [s0 k0].
    simpl in Hinit.
    destruct (Dict.get _ (_registered_models s0));
      simpl; rewrite Hinit; destruct (_initialized self); auto.
  - unfold get_all_models.
    destruct (_initialize (call_env c) (call_clock c) 0 self) as [s0 k0].
    simpl in Hinit.
    simpl; rewrite Hinit; destruct (_initialized self); auto.
  - rewrite reload_runtime_models_eq; right; reflexivity.
Qed.

(** ** Reload *)

(** C4. [reload_runtime_models] returns normally; it leaves the registered
    dictionary as it was and makes the runtime dictionary the result of a
    scan of the environment of the call: the same whatever the service
    held before, every key of it the lowercased identifier of a URL
    variable of that environment whose value is not blank. *)
Theorem reload_replaces_runtime_models (env : Env) (now : Clock)
    (self : ModelService) :
  let self' := snd (reload_runtime_models env now self) in
  fst (reload_runtime_models env now self) = Return tt
  /\ _registered_models self' = _registered_models self
  /\ _runtime_models self' = fst (scan_environ env now env Dict.empty 0)
  /\ (forall other : ModelService,
        _runtime_models (snd (reload_runtime_models env now other))
        = _runtime_models self')
  /\ (forall id,
        Dict.mem id (_runtime_models self') = true ->
        exists env_var env_value group1,
          In (env_var, env_value) env
          /\ url_variable_group env_var = Some group1
          /\ str_strip env_value <> ""
          /\ str_lower group1 = id).
Proof.
  cbv zeta; rewrite reload_runtime_models_eq.
  cbn [fst snd _registered_models _runtime_models].
  repeat split.
  - intros other; rewrite reload_runtime_models_eq; reflexivity.
  - intros id H.
    apply scan_environ_mem in H as [H|H]; [discriminate|exact H].
Qed.

(** ** Runtime entries *)

(** C10. Every model the scan puts in its dictionary has status [ACTIVE]
    and the tag list [["runtime"]]; and so has every entry of the runtime
    dictionary after any sequence of calls, none of which is inactive. *)
Theorem runtime_entries_active :
  (forall env now k id m,
      Dict.get id (fst (scan_environ env now env Dict.empty k)) = Some m ->
      status m = ACTIVE /\ tags m = ["runtime"])
  /\ (forall calls id m,
        Dict.get id (_runtime_models (run calls)) = Some m ->
        status m = ACTIVE /\ tags m = ["runtime"] /\ is_active m = true).
Proof.
  assert (Hscan : forall env now k id m,
             Dict.get id (fst (scan_environ env now env Dict.empty k)) = Some m ->
             status m = ACTIVE /\ tags m = ["runtime"]).
  { intros env now k id m.
    apply (scan_environ_entries
             (fun _ m => status m = ACTIVE /\ tags m = ["runtime"])).
    - intros k' v x m' _ Hm'.
      destruct (runtime_model_of_inv _ _ _ _ _ _ Hm') as (g & _ & _ & ->).
      split; reflexivity.
    - discriminate. }
  split; [exact Hscan|].
  intros calls.
  apply (run_invariant
           (fun self => forall id m,
                Dict.get id (_runtime_models self) = Some m ->
                status m = ACTIVE /\ tags m = ["runtime"]
                /\ is_active m = true)).
  - discriminate.
  - intros self c IH id m.
    destruct (step_runtime self c) as [-> | ->]; [apply IH|].
    intros H; destruct (Hscan _ _ _ _ _ H) as [Hs Ht].
    repeat split; try assumption.
    unfold is_active; rewrite Hs.
    destruct (ModelStatus_eq_dec ACTIVE ACTIVE); [reflexivity|contradiction].
Qed.

(** ** The operations, in terms of the service they act on *)

Lemma seen_initialized (env : Env) (now : Clock) (self : ModelService) :
  _initialized self = true -> seen env now self = self.
Proof.
  intros H; unfold seen; rewrite _initialize_done by exact H; reflexivity.
Qed.

Lemma register_model_eq (env : Env) (now : Clock)
    (request : ModelRegistrationRequest) (self : ModelService) :
  register_model env now request self
  = let self0 := seen env now self in
    let id := req_model_id request in
    if Dict.mem id (_registered_models self0) then
      (Raise (already_exists id), self0)
    else if Dict.mem id (_runtime_models self0) then
      (Raise (runtime_conflict id), self0)
    else
      let model := model_of_request request (now (reading env now self)) in
      (Return model,
       with_registered (Dict.set id model (_registered_models self0)) self0).
Proof.
  unfold register_model, seen, reading.
  destruct (_initialize env now 0 self); reflexivity.
Qed.

Lemma update_model_eq (env : Env) (now : Clock) (id : string)
    (request : ModelUpdateRequest) (self : ModelService) :
  update_model env now id request self
  = let self0 := seen env now self in
    if Dict.mem id (_runtime_models self0) then (Raise cannot_update, self0)
    else
      match Dict.get id (_registered_models self0) with
      | None => (Return None, self0)
      | Some model =>
          let model' :=
            apply_update request (now (reading env now self)) model in
          (Return (Some model'),
           with_registered (Dict.set id model' (_registered_models self0))
             self0)
      end.
Proof.
  unfold update_model, seen, reading.
  destruct (_initialize env now 0 self); reflexivity.
Qed.

Lemma delete_model_eq (env : Env) (now : Clock) (id : string)
    (self : ModelService) :
  delete_model env now id self
  = let self0 := seen env now self in
    if Dict.mem id (_runtime_models self0) then (Raise cannot_delete, self0)
    else if Dict.mem id (_registered_models self0) then
      (Return true,
       with_registered (Dict.del id (_registered_models self0)) self0)
    else (Return false, self0).
Proof.
  unfold delete_model, seen.
  destruct (_initialize env now 0 self); reflexivity.
Qed.

Lemma get_model_by_id_eq (env : Env) (now : Clock) (id : string)
    (self : ModelService) :
  get_model_by_id env now id self
  = let self0 := seen env now self in
    match Dict.get id (_registered_models self0) with
    | Some model => (Return (Some model), self0)
    | None => (Return (Dict.get id (_runtime_models self0)), self0)
    end.
Proof.
  unfold get_model_by_id, seen.
  destruct (_initialize env now 0 self); reflexivity.
Qed.

Lemma get_all_models_eq (env : Env) (now : Clock) (include_inactive : bool)
    (self : ModelService) :
  get_all_models env now include_inactive self
  = let self0 := seen env now self in
    (Return
       {| models :=
            (registered_summaries include_inactive self0
             ++ runtime_summaries self0)%list;
          total_models :=
            length (registered_summaries include_inactive self0
                    ++ runtime_summaries self0)%list;
          runtime_models := runtime_summaries self0 |}, self0).
Proof.
  unfold get_all_models, seen.
  destruct (_initialize env now 0 self); reflexivity.
Qed.

(** ** Protection of the runtime identifiers *)

(** For an identifier that is a key of the runtime dictionary the
    operation works on, [register_model] raises one of its two conflict
    errors (the runtime one when the identifier is not registered as
    well), [update_model] raises its protection error instead of
    returning [None], and [delete_model] raises its protection error; the
    service is left as the operation found it: the registered dictionary
    is the one before the call, and so is the whole service when it was
    initialised. *)
Lemma runtime_identifiers_protected_seen (env : Env) (now : Clock)
    (id : string)
    (request : ModelRegistrationRequest) (update : ModelUpdateRequest)
    (self : ModelService) :
  let self0 := seen env now self in
  Dict.mem id (_runtime_models self0) = true ->
  req_model_id request = id ->
  (exists e,
      register_model env now request self = (Raise e, self0)
      /\ (e = already_exists id \/ e = runtime_conflict id))
  /\ (Dict.mem id (_registered_models self0) = false ->
      register_model env now request self = (Raise (runtime_conflict id), self0))
  /\ update_model env now id update self = (Raise cannot_update, self0)
  /\ delete_model env now id self = (Raise cannot_delete, self0)
  /\ _registered_models self0 = _registered_models self
  /\ (_initialized self = true -> self0 = self).
Proof.
  intros self0 Hrun Hid; subst self0.
  rewrite register_model_eq, update_model_eq, delete_model_eq.
  cbv zeta; rewrite Hid, Hrun.
  split; [|split; [|repeat split]].
  - destruct (Dict.mem id (_registered_models (seen env now self)));
      eexists; split; eauto.
  - intros ->; reflexivity.
  - apply _initialize_registered.
  - apply seen_initialized.
Qed.


(** ** Outcomes of register, update and delete *)

(** On the service the operation works on: [register_model] raises a
    conflict error and changes nothing when the identifier is a key of
    either dictionary; otherwise it returns the model it has appended to
    the registered dictionary under that identifier, whose [created_at]
    and [updated_at] are both the reading of the clock it made.
    [update_model] returns [None] for an identifier in neither
    dictionary.  [delete_model], when it returns, returns [True] exactly
    when the identifier was registered, and then the registered dictionary
    has lost that item; it returns [False] with nothing changed
    otherwise. *)
Lemma register_update_delete_outcomes_seen (env : Env) (now : Clock)
    (request : ModelRegistrationRequest) (id : string)
    (update : ModelUpdateRequest) (self : ModelService) :
  let self0 := seen env now self in
  let t := now (reading env now self) in
  let rid := req_model_id request in
  (Dict.mem rid (_registered_models self0) = true
   \/ Dict.mem rid (_runtime_models self0) = true ->
   exists e,
     register_model env now request self = (Raise e, self0)
     /\ (e = already_exists rid \/ e = runtime_conflict rid))
  /\ (Dict.mem rid (_registered_models self0) = false ->
      Dict.mem rid (_runtime_models self0) = false ->
      exists model self',
        register_model env now request self = (Return model, self')
        /\ model = model_of_request request t
        /\ created_at model = t /\ updated_at model = t
        /\ Dict.get rid (_registered_models self') = Some model
        /\ Dict.keys (_registered_models self')
           = (Dict.keys (_registered_models self0) ++ [rid])%list
        /\ (forall id', id' <> rid ->
               Dict.get id' (_registered_models self')
               = Dict.get id' (_registered_models self0))
        /\ _runtime_models self' = _runtime_models self0)
  /\ (Dict.mem id (_registered_models self0) = false ->
      Dict.mem id (_runtime_models self0) = false ->
      update_model env now id update self = (Return None, self0))
  /\ (forall b self',
        delete_model env now id self = (Return b, self') ->
        (b = true <-> Dict.mem id (_registered_models self0) = true)
        /\ (b = true ->
            _registered_models self' = Dict.del id (_registered_models self0)
            /\ S (length (_registered_models self'))
               = length (_registered_models self0)
            /\ (forall id', id' <> id ->
                   Dict.get id' (_registered_models self')
                   = Dict.get id' (_registered_models self0))
            /\ _runtime_models self' = _runtime_models self0)
        /\ (b = false -> self' = self0)).
Proof.
  intros self0 t rid; subst self0 t rid.
  rewrite register_model_eq, update_model_eq, delete_model_eq; cbv zeta.
  set (self0 := seen env now self).
  set (t := now (reading env now self)).
  repeat apply conj.
  - intros [H|H].
    + rewrite H; eexists; split; eauto.
    + rewrite H.
      destruct (Dict.mem (req_model_id request) (_registered_models self0));
        eexists; split; eauto.
  - intros Hreg Hrun; rewrite Hreg, Hrun.
    do 2 eexists; split; [reflexivity|]; simpl.
    repeat apply conj; try reflexivity.
    + apply DictFacts.get_set_same.
    + rewrite DictFacts.keys_set, Hreg; reflexivity.
    + intros id' Hne; apply DictFacts.get_set_other; exact Hne.
  - intros Hreg Hrun; rewrite Hrun.
    unfold Dict.mem in Hreg.
    destruct (Dict.get id (_registered_models self0)); [discriminate|].
    reflexivity.
  - intros b self'.
    destruct (Dict.mem id (_runtime_models self0)); [discriminate|].
    destruct (Dict.mem id (_registered_models self0)) eqn:Hreg;
      intros H; injection H as <- <-; simpl.
    + repeat apply conj; try tauto; try discriminate.
      intros _; repeat apply conj; try reflexivity.
      * apply DictFacts.length_del; exact Hreg.
      * intros id' Hne; apply DictFacts.get_del_other; exact Hne.
    + repeat apply conj; try tauto; discriminate.
Qed.


(** ** Listing *)

(** [get_all_models] with [include_inactive=False] returns the
    summaries of the registered models whose status is [ACTIVE], none of
    another status, followed by the summary of every runtime model
    whatever its status; [total_models] is the length of the list, and
    the runtime summaries are returned apart as well. *)
Lemma get_all_models_active_only_seen (env : Env) (now : Clock)
    (self : ModelService) :
  let self0 := seen env now self in
  exists response,
    get_all_models env now false self = (Return response, self0)
    /\ models response
       = (registered_summaries false self0 ++ runtime_models response)%list
    /\ runtime_models response
       = map summary_of (Dict.values (_runtime_models self0))
    /\ Forall (fun s => sum_status s = ACTIVE)
         (registered_summaries false self0)
    /\ (forall s,
          In s (registered_summaries false self0) <->
          exists m,
            In m (Dict.values (_registered_models self0))
            /\ status m = ACTIVE /\ s = summary_of m)
    /\ (forall m,
          In m (Dict.values (_runtime_models self0)) ->
          In (summary_of m) (models response))
    /\ total_models response = length (models response).
Proof.
  intros self0; subst self0; rewrite get_all_models_eq; cbv zeta.
  set (self0 := seen env now self).
  assert (Hreg : forall s,
             In s (registered_summaries false self0) <->
             exists m,
               In m (Dict.values (_registered_models self0))
               /\ status m = ACTIVE /\ s = summary_of m).
  { intros s; unfold registered_summaries.
    rewrite in_map_iff; split.
    - intros (m & <- & Hm); apply filter_In in Hm as [Hin Hact].
      exists m; repeat split; auto.
      unfold is_active in Hact; simpl in Hact.
      destruct (ModelStatus_eq_dec (status m) ACTIVE); [assumption|discriminate].
    - intros (m & Hin & Hact & ->); exists m; split; [reflexivity|].
      apply filter_In; split; [exact Hin|].
      unfold is_active; simpl.
      destruct (ModelStatus_eq_dec (status m) ACTIVE); [reflexivity|contradiction]. }
  eexists; split; [reflexivity|]; simpl.
  repeat apply conj; try reflexivity.
  - apply Forall_forall; intros s Hs.
    apply Hreg in Hs as (m & _ & Hact & ->); exact Hact.
  - exact Hreg.
  - intros m Hm; apply in_or_app; right.
    unfold runtime_summaries; apply in_map; exact Hm.
Qed.


(** ** Update *)

(** C3, as the code has it.  For a model registered under an identifier
    that is not a runtime one, [update_model] returns the stored model
    after the update: every field is at the value the request gives, or
    where it was when the request gives none; [model_id] and [created_at]
    stay; [updated_at] is the reading of the clock made by the call, so
    that it has increased when that reading is later than the one it
    held.  Nothing else in the two dictionaries changes. *)
Theorem update_model_given_fields (env : Env) (now : Clock) (id : string)
    (request : ModelUpdateRequest) (self : ModelService) (model : Model) :
  let self0 := seen env now self in
  let t := now (reading env now self) in
  Dict.mem id (_runtime_models self0) = false ->
  Dict.get id (_registered_models self0) = Some model ->
  exists model' self',
    update_model env now id request self = (Return (Some model'), self')
    /\ Dict.get id (_registered_models self') = Some model'
    /\ (forall id', id' <> id ->
          Dict.get id' (_registered_models self')
          = Dict.get id' (_registered_models self0))
    /\ Dict.keys (_registered_models self')
       = Dict.keys (_registered_models self0)
    /\ _runtime_models self' = _runtime_models self0
    /\ given_or_kept (upd_model_name request)
         (model_name model) (model_name model')
    /\ given_or_kept (upd_description request)
         (description model) (description model')
    /\ given_or_kept (upd_model_type request)
         (model_type model) (model_type model')
    /\ given_or_kept (upd_base_url request)
         (base_url model) (base_url model')
    /\ given_or_kept (upd_api_key_required request)
         (api_key_required model) (api_key_required model')
    /\ given_or_kept (option_map Some (upd_model_path request))
         (model_path model) (model_path model')
    /\ given_or_kept (upd_capabilities request)
         (capabilities model) (capabilities model')
    /\ given_or_kept (upd_config request) (config model) (config model')
    /\ given_or_kept (upd_status request) (status model) (status model')
    /\ given_or_kept (upd_tags request) (tags model) (tags model')
    /\ model_id model' = model_id model
    /\ created_at model' = created_at model
    /\ updated_at model' = t
    /\ ((updated_at model < t)%Z ->
        (updated_at model < updated_at model')%Z).
Proof.
  intros self0 t Hrun Hreg; subst self0 t.
  rewrite update_model_eq; cbv zeta; rewrite Hrun, Hreg.
  do 2 eexists; split; [reflexivity|]; simpl.
  repeat apply conj; try reflexivity.
  - apply DictFacts.get_set_same.
  - intros id' Hne; apply DictFacts.get_set_other; exact Hne.
  - rewrite DictFacts.keys_set.
    unfold Dict.mem; rewrite Hreg; reflexivity.
  - destruct (upd_model_name request); reflexivity.
  - destruct (upd_description request); reflexivity.
  - destruct (upd_model_type request); reflexivity.
  - destruct (upd_base_url request); reflexivity.
  - destruct (upd_api_key_required request); reflexivity.
  - destruct (upd_model_path request); reflexivity.
  - destruct (upd_capabilities request); reflexivity.
  - destruct (upd_config request); reflexivity.
  - destruct (upd_status request); reflexivity.
  - destruct (upd_tags request); reflexivity.
  - exact (fun H => H).
Qed.

(** ** Disjointness of the two registries *)

Lemma scan_environ_scanned (env : Env) (now : Clock) (k : nat) (id : string) :
  Dict.mem id (fst (scan_environ env now env Dict.empty k)) = true <->
  scanned env id.
Proof.
  rewrite scan_environ_mem; unfold scanned; split.
  - intros [H|H]; [discriminate|exact H].
  - intros H; right; exact H.
Qed.

Lemma agrees_with_seen (env : Env) (now : Clock) (self : ModelService) :
  agrees_with env self -> agrees_with env (seen env now self).
Proof.
  intros (Hrun & Hreg & Hall); unfold seen.
  destruct (_initialized self) eqn:E.
  - rewrite _initialize_done by exact E.
    repeat split; auto.
  - rewrite _initialize_fresh by exact E; simpl.
    repeat split; simpl.
    + intros id; apply scan_environ_scanned.
    + exact Hreg.
    + intros _ id; apply scan_environ_scanned.
Qed.

Lemma agrees_with_registered (env : Env) (self : ModelService)
    (d : Dict.t Model) :
  agrees_with env self ->
  (forall id, Dict.mem id d = true -> ~ scanned env id) ->
  agrees_with env (with_registered d self).
Proof.
  intros (Hrun & Hreg & Hall) Hd; repeat split; simpl; auto.
Qed.

Lemma agrees_with_step (env : Env) (self : ModelService) (c : Call) :
  call_env c = env -> agrees_with env self -> agrees_with env (step self c).
Proof.
  destruct c as [env' now op]; simpl; intros -> Hself.
  assert (Hseen := agrees_with_seen env now self Hself).
  assert (Hinit : _initialized (seen env now self) = true)
    by apply _initialize_initialized.
  unfold step; cbn [call_env call_clock call_op].
  destruct op as [|request|id request|id|id|b|].
  - exact Hseen.
  - rewrite register_model_eq; cbv zeta.
    destruct (Dict.mem _ (_registered_models (seen env now self))) eqn:Ereg;
      [exact Hseen|].
    destruct (Dict.mem _ (_runtime_models (seen env now self))) eqn:Erun;
      [exact Hseen|]; simpl.
    apply agrees_with_registered; [exact Hseen|].
    intros id; rewrite DictFacts.mem_set.
    destruct (String.eqb id (req_model_id request)) eqn:Eid; simpl.
    + apply String.eqb_eq in Eid; subst id; intros _ Hsc.
      destruct Hseen as (_ & _ & Hall).
      rewrite (Hall Hinit _ Hsc) in Erun; discriminate.
    + apply Hseen.
  - rewrite update_model_eq; cbv zeta.
    destruct (Dict.mem _ (_runtime_models (seen env now self)));
      [exact Hseen|].
    destruct (Dict.get id (_registered_models (seen env now self)))
      as [model|] eqn:Eget; [|exact Hseen]; simpl.
    apply agrees_with_registered; [exact Hseen|].
    intros id'; rewrite DictFacts.mem_set.
    destruct (String.eqb id' id) eqn:Eid; simpl.
    + apply String.eqb_eq in Eid; subst id'; intros _.
      apply Hseen; apply DictFacts.mem_get; exists model; exact Eget.
    + apply Hseen.
  - rewrite delete_model_eq; cbv zeta.
    destruct (Dict.mem _ (_runtime_models (seen env now self)));
      [exact Hseen|].
    destruct (Dict.mem _ (_registered_models (seen env now self)));
      [|exact Hseen]; simpl.
    apply agrees_with_registered; [exact Hseen|].
    intros id' H; apply DictFacts.mem_del in H; revert H; apply Hseen.
  - rewrite get_model_by_id_eq; cbv zeta.
    destruct (Dict.get id (_registered_models (seen env now self)));
      exact Hseen.
  - rewrite get_all_models_eq; exact Hseen.
  - rewrite reload_runtime_models_eq; simpl.
    destruct Hself as (Hrun & Hreg & Hall); repeat split; simpl.
    + intros id; apply scan_environ_scanned.
    + exact Hreg.
    + intros _ id; apply scan_environ_scanned.
Qed.

(** C1, as the code has it.  After any sequence of calls that were all
    made under the same environment, no identifier is a key of both the
    registered and the runtime dictionary. *)
Theorem registries_disjoint_same_environ (env : Env) (calls : list Call) :
  Forall (fun c => call_env c = env) calls ->
  registries_disjoint (run calls).
Proof.
  intros Hcalls.
  assert (H : agrees_with env (run calls)).
  { apply (run_invariant_on (agrees_with env) (fun c => call_env c = env)).
    - repeat split; simpl; discriminate.
    - intros self c Hc; apply agrees_with_step; exact Hc.
    - exact Hcalls. }
  destruct H as (Hrun & Hreg & _).
  intros id [H1 H2]; exact (Hreg id H1 (Hrun id H2)).
Qed.

(** ** Discovery of a runtime model *)

Lemma startswith_app (p s : string) : PyStr.startswith p (p ++ s) = true.
Proof.
  unfold PyStr.startswith; induction p as [|c p IH]; simpl.
  - destruct s; reflexivity.
  - destruct (ascii_dec c c); [exact IH|contradiction].
Qed.

Lemma endswith_eq (suf s : string) :
  PyStr.endswith suf s
  = if String.eqb s suf then true
    else match s with
         | EmptyString => false
         | String _ s' => PyStr.endswith suf s'
         end.
Proof. destruct s; reflexivity. Qed.

Lemma endswith_app (suf s : string) : PyStr.endswith suf (s ++ suf) = true.
Proof.
  induction s as [|c s IH].
  - change ("" ++ suf) with suf.
    rewrite endswith_eq, String.eqb_refl; reflexivity.
  - change (String c s ++ suf) with (String c (s ++ suf)).
    rewrite endswith_eq, IH; destruct (String.eqb _ suf); reflexivity.
Qed.

Lemma first_line_app (s t : string) :
  PyStr.contains_char PyStr.newline s = false ->
  PyStr.first_line (s ++ t) = s ++ PyStr.first_line t.
Proof.
  induction s as [|c s IH]; intros H.
  - reflexivity.
  - cbn [PyStr.contains_char] in H.
    apply orb_false_iff in H as [Hc Hs].
    change (String c s ++ t) with (String c (s ++ t)).
    cbn [PyStr.first_line].
    rewrite Ascii.eqb_sym, Hc, (IH Hs); reflexivity.
Qed.

Lemma rfind_url_app (s : string) :
  PyStr.rfind "_URL" (s ++ "_URL") = Some (String.length s).
Proof.
  induction s as [|c s IH].
  - reflexivity.
  - change (PyStr.rfind "_URL" (String c (s ++ "_URL")) = Some (S (String.length s))).
    cbn [PyStr.rfind]; rewrite IH; reflexivity.
Qed.

Lemma take_length_app (s t : string) :
  PyStr.take (String.length s) (s ++ t) = s.
Proof.
  induction s as [|c s IH]; simpl.
  - destruct t; reflexivity.
  - rewrite IH; reflexivity.
Qed.

(** The scan reads the identifier back from the name of a URL variable
    made of it, when it is not empty and has no line feed. *)
Lemma url_variable_group_of_id (ID : string) :
  ID <> "" ->
  PyStr.contains_char PyStr.newline ID = false ->
  url_variable_group ("EVAL_HUB_MODEL_" ++ ID ++ "_URL") = Some ID.
Proof.
  intros Hne Hnl; unfold url_variable_group, re_match_group1.
  rewrite startswith_app.
  change (PyStr.drop 15 ("EVAL_HUB_MODEL_" ++ ID ++ "_URL"))
    with (ID ++ "_URL").
  replace ("EVAL_HUB_MODEL_" ++ ID ++ "_URL")
    with (("EVAL_HUB_MODEL_" ++ ID) ++ "_URL") by reflexivity.
  rewrite endswith_app; simpl.
  rewrite (first_line_app ID "_URL" Hnl).
  change (PyStr.first_line "_URL") with "_URL".
  destruct ID as [|c rest]; [contradiction|].
  change (String c rest ++ "_URL") with (String c (rest ++ "_URL")).
  cbv beta iota.
  rewrite rfind_url_app, take_length_app; reflexivity.
Qed.

Lemma seen_new_runtime (env : Env) (now : Clock) :
  _runtime_models (seen env now __init__)
  = fst (scan_environ env now env Dict.empty 0).
Proof. unfold seen; rewrite _initialize_fresh; reflexivity. Qed.

Lemma get_model_by_id_new (env : Env) (now : Clock) (id : string) :
  fst (get_model_by_id env now id __init__)
  = Return (Dict.get id (_runtime_models (seen env now __init__))).
Proof.
  rewrite get_model_by_id_eq; cbv zeta.
  unfold seen at 1; rewrite _initialize_registered; reflexivity.
Qed.

(** The scenario of the specification: the one variable
    [EVAL_HUB_MODEL_GPT4_URL] set to [http://gpt4]. *)
Lemma get_gpt4 (now : Clock) :
  fst (get_model_by_id [("EVAL_HUB_MODEL_GPT4_URL", "http://gpt4")] now
         "gpt4" __init__)
  = Return
      (Some {| model_id := "gpt4";
               model_name := "Runtime Model GPT4";
               description := "Runtime-specified model: Runtime Model GPT4";
               model_type := OPENAI_COMPATIBLE;
               base_url := "http://gpt4";
               api_key_required := true;
               model_path := None;
               capabilities := ModelCapabilities_default;
               config := ModelConfig_default;
               status := ACTIVE;
               tags := ["runtime"];
               created_at := now 0;
               updated_at := now 1 |}).
Proof.
  rewrite get_model_by_id_new, seen_new_runtime.
  cbn [scan_environ]; unfold runtime_model_of.
  change (url_variable_group "EVAL_HUB_MODEL_GPT4_URL") with (Some "GPT4").
  cbv beta iota zeta.
  rewrite (str_strip_ascii "http://gpt4" eq_refl).
  rewrite (str_lower_ascii "GPT4" eq_refl).
  change (PyStr.ascii_strip "http://gpt4") with "http://gpt4".
  change (PyStr.ascii_lower "GPT4") with "gpt4".
  rewrite (str_upper_ascii "gpt4" eq_refl).
  change (PyStr.ascii_upper "gpt4") with "GPT4".
  unfold parse_model_type, getenv_default; cbn [PyStr.is_empty].
  change (getenv _ ("EVAL_HUB_MODEL_" ++ "GPT4" ++ "_NAME")) with (@None string).
  change (getenv _ ("EVAL_HUB_MODEL_" ++ "GPT4" ++ "_TYPE")) with (@None string).
  change (getenv _ ("EVAL_HUB_MODEL_" ++ "GPT4" ++ "_PATH")) with (@None string).
  cbv beta iota.
  rewrite (str_lower_ascii "openai-compatible" eq_refl).
  change (PyStr.ascii_lower "openai-compatible") with "openai-compatible".
  rewrite OPENAI_COMPATIBLE_value; reflexivity.
Qed.

(** C2, as the code has it.  Let the environment hold the variable
    [EVAL_HUB_MODEL_<ID>_URL], with an [ID] that is not empty and has no
    line feed, at a value that is not blank.  After initialisation the
    runtime dictionary holds, under the lowercased [ID], a model of that
    identifier, which [get_model_by_id] returns, with
    [api_key_required = True], status [ACTIVE] and the tag list
    [["runtime"]].  When no other item of the environment is scanned to
    the same identifier, that model has the stripped value as its URL,
    the value of the [NAME] variable of [ID] as its name or
    ["Runtime Model " + upper-cased identifier] without one, the member
    named by the lowercased value of the [TYPE] variable as its type or
    [OPENAI_COMPATIBLE] when there is none or it names no member, and the
    value of the [PATH] variable as its path or none.  An item whose
    value is blank stores nothing, the scan going on: the keys of the
    runtime dictionary are the identifiers of the URL variables whose
    value is not blank, and no other.  With
    [EVAL_HUB_MODEL_GPT4_URL=http://gpt4] alone, [get_model_by_id("gpt4")]
    returns the model so described. *)
Theorem runtime_model_discovered (now : Clock) :
  (forall (env : Env) (ID value : string),
      let url_var := "EVAL_HUB_MODEL_" ++ ID ++ "_URL" in
      let name_var := "EVAL_HUB_MODEL_" ++ ID ++ "_NAME" in
      let type_var := "EVAL_HUB_MODEL_" ++ ID ++ "_TYPE" in
      let path_var := "EVAL_HUB_MODEL_" ++ ID ++ "_PATH" in
      let id := str_lower ID in
      let self := seen env now __init__ in
      In (url_var, value) env ->
      ID <> "" ->
      PyStr.contains_char PyStr.newline ID = false ->
      str_strip value <> "" ->
      exists m,
        Dict.get id (_runtime_models self) = Some m
        /\ fst (get_model_by_id env now id __init__) = Return (Some m)
        /\ model_id m = id
        /\ api_key_required m = true
        /\ status m = ACTIVE
        /\ tags m = ["runtime"]
        /\ ((forall env_var env_value group1,
                In (env_var, env_value) env ->
                url_variable_group env_var = Some group1 ->
                str_strip env_value <> "" ->
                str_lower group1 = id ->
                env_var = url_var /\ env_value = value) ->
            base_url m = str_strip value
            /\ (getenv env name_var = None ->
                model_name m = "Runtime Model " ++ str_upper id)
            /\ (forall s, getenv env name_var = Some s -> model_name m = s)
            /\ (getenv env type_var = None ->
                model_type m = OPENAI_COMPATIBLE)
            /\ (forall s,
                  getenv env type_var = Some s ->
                  model_type m
                  = match ModelType_of_value (str_lower s) with
                    | Some t => t
                    | None => OPENAI_COMPATIBLE
                    end)
            /\ model_path m = getenv env path_var))
  /\ (forall (env : Env) (k : nat) (env_var env_value : string),
        str_strip env_value = "" ->
        runtime_model_of env now k env_var env_value = None)
  /\ (forall (env : Env) (id : string),
        Dict.mem id (_runtime_models (seen env now __init__)) = true <->
        scanned env id)
  /\ fst (get_model_by_id [("EVAL_HUB_MODEL_GPT4_URL", "http://gpt4")] now
            "gpt4" __init__)
     = Return
         (Some {| model_id := "gpt4";
                  model_name := "Runtime Model GPT4";
                  description := "Runtime-specified model: Runtime Model GPT4";
                  model_type := OPENAI_COMPATIBLE;
                  base_url := "http://gpt4";
                  api_key_required := true;
                  model_path := None;
                  capabilities := ModelCapabilities_default;
                  config := ModelConfig_default;
                  status := ACTIVE;
                  tags := ["runtime"];
                  created_at := now 0;
                  updated_at := now 1 |}).
Proof.
  split; [|split; [|split; [|apply get_gpt4]]].
  2:{ intros env k env_var env_value Hblank; unfold runtime_model_of.
      destruct (url_variable_group env_var); [|reflexivity].
      rewrite Hblank; reflexivity. }
  2:{ intros env id; rewrite seen_new_runtime; apply scan_environ_scanned. }
  intros env ID value url_var name_var type_var path_var id self
         Hin Hne Hnl Hval.
  assert (Hgrp : url_variable_group url_var = Some ID)
    by (apply url_variable_group_of_id; assumption).
  assert (Hmem : Dict.mem id (_runtime_models self) = true).
  { subst self; rewrite seen_new_runtime; apply scan_environ_scanned.
    exists url_var, value, ID; repeat split; assumption. }
  apply DictFacts.mem_get in Hmem as [m Hm]; exists m.
  split; [exact Hm|].
  split; [rewrite get_model_by_id_new; fold self; rewrite Hm; reflexivity|].
  subst self; rewrite seen_new_runtime in Hm.
  assert (Hshape :
            model_id m = id /\ api_key_required m = true
            /\ status m = ACTIVE /\ tags m = ["runtime"]).
  { revert Hm.
    apply (scan_environ_entries
             (fun id m =>
                model_id m = id /\ api_key_required m = true
                /\ status m = ACTIVE /\ tags m = ["runtime"])).
    - intros k v x m' _ Hm'.
      destruct (runtime_model_of_inv _ _ _ _ _ _ Hm') as (g & _ & _ & ->).
      repeat split.
    - discriminate. }
  destruct Hshape as (H1 & H2 & H3 & H4).
  repeat (split; [assumption|]).
  intros Huniq.
  apply (scan_environ_entries
           (fun id' m =>
              id' = id ->
              base_url m = str_strip value
              /\ (getenv env name_var = None ->
                  model_name m = "Runtime Model " ++ str_upper id)
              /\ (forall s, getenv env name_var = Some s -> model_name m = s)
              /\ (getenv env type_var = None ->
                  model_type m = OPENAI_COMPATIBLE)
              /\ (forall s,
                    getenv env type_var = Some s ->
                    model_type m
                    = match ModelType_of_value (str_lower s) with
                      | Some t => t
                      | None => OPENAI_COMPATIBLE
                      end)
              /\ model_path m = getenv env path_var)
           env now env)
    with (acc := Dict.empty) (k := 0) (id := id) (m := m);
    [| discriminate | exact Hm | reflexivity ].
  - intros k v x m' Hin' Hm' Hid'.
    destruct (runtime_model_of_inv _ _ _ _ _ _ Hm') as (g & Hg & Hs & ->).
    cbn [model_id] in Hid'.
    destruct (Huniq v x g Hin' Hg Hs Hid') as [-> ->].
    assert (g = ID) by congruence; subst g.
    cbn [base_url model_name model_type model_path].
    fold name_var type_var path_var id.
    unfold getenv_default, parse_model_type.
    repeat split.
    + intros ->; reflexivity.
    + intros s ->; reflexivity.
    + intros ->.
      rewrite (str_lower_ascii "openai-compatible" eq_refl).
      change (PyStr.ascii_lower "openai-compatible") with "openai-compatible".
      rewrite OPENAI_COMPATIBLE_value; reflexivity.
    + intros s ->; reflexivity.
Qed.

End Properties.

(** ** Construction of the NeMo executor *)

(** C8. A configuration bag without [endpoint] makes the constructor
    raise an error whose message names the field; one whose [endpoint] is
    the empty string makes it raise another error, which says that the
    endpoint must be non-empty; and an executor that has been built has
    the non-empty string of its bag as endpoint. *)
Theorem nemo_executor_validates_endpoint :
  (forall config,
      Dict.get "endpoint" config = None ->
      Nemo.new config = Raise Nemo.missing_endpoint)
  /\ Nemo.is_substring "missing required field: endpoint"
       (Nemo.message Nemo.missing_endpoint) = true
  /\ (forall config,
        Dict.get "endpoint" config = Some (Nemo.VStr "") ->
        Nemo.new config = Raise Nemo.empty_endpoint)
  /\ Nemo.is_substring "must be a non-empty" (Nemo.message Nemo.empty_endpoint)
     = true
  /\ Nemo.missing_endpoint <> Nemo.empty_endpoint
  /\ (forall config executor,
        Nemo.new config = Return executor ->
        exists s,
          Dict.get "endpoint" config = Some (Nemo.VStr s)
          /\ s <> ""
          /\ Nemo.endpoint executor = s
          /\ Nemo.backend_config executor = config).
Proof.
  repeat apply conj.
  - intros config H; unfold Nemo.new; rewrite H; reflexivity.
  - reflexivity.
  - intros config H; unfold Nemo.new; rewrite H; reflexivity.
  - reflexivity.
  - discriminate.
  - intros config executor; unfold Nemo.new.
    destruct (Dict.get "endpoint" config) as [[| | |s]|]; try discriminate.
    destruct s as [|c s]; [discriminate|]; simpl.
    intros H; injection H as <-.
    eexists; repeat split; discriminate.
Qed.

(** * The properties at work on concrete services *)

(** C1 fails when the environment changes between a registration and a
    reload: [gpt4] is then a key of both dictionaries. *)
Lemma registries_overlap_after_reload :
  ~ registries_disjoint (run Cases.register_then_reload).
Proof.
  intros H; apply (H "gpt4"); split; reflexivity.
Qed.

Lemma registries_disjoint_same_environ_witness :
  Forall (fun c => call_env c = Sample.env_gpt4) Cases.same_environ_calls
  /\ registries_disjoint (run Cases.same_environ_calls).
Proof.
  split.
  - repeat constructor.
  - apply (registries_disjoint_same_environ Sample.env_gpt4).
    repeat constructor.
Defined.

(** C2 fails when two URL variables differ by the case of their
    identifier: the entry of [gpt4] is the one of the variable scanned
    last, with the name and path of its siblings, although neither the
    [NAME] nor the [PATH] variable of [GPT4] is set. *)
Lemma discovery_overridden_by_case_variant :
  In ("EVAL_HUB_MODEL_GPT4_URL", "http://a") Cases.env_two_cases
  /\ getenv Cases.env_two_cases "EVAL_HUB_MODEL_GPT4_NAME" = None
  /\ getenv Cases.env_two_cases "EVAL_HUB_MODEL_GPT4_PATH" = None
  /\ exists m : Model (D := Sample.decls),
       Dict.get "gpt4"
         (_runtime_models
            (seen Cases.env_two_cases (Sample.ticking 0) __init__)) = Some m
       /\ model_name m = "Foo"
       /\ model_name m <> "Runtime Model GPT4"
       /\ model_path m = Some "/p"
       /\ model_path m <> None.
Proof.
  split; [left; reflexivity|].
  split; [reflexivity|].
  split; [reflexivity|].
  eexists; split; [reflexivity|].
  repeat split; discriminate.
Qed.

Lemma runtime_model_discovered_witness :
  exists m : Model (D := Sample.decls),
    fst (get_model_by_id Sample.env_gpt4 (Sample.ticking 0) "gpt4" __init__)
    = Return (Some m)
    /\ api_key_required m = true
    /\ tags m = ["runtime"]
    /\ model_name m = "Runtime Model GPT4"
    /\ model_type m = OPENAI_COMPATIBLE
    /\ model_path m = None.
Proof.
  destruct (proj1 (runtime_model_discovered (D := Sample.decls)
                     (Sample.ticking 0))
              Sample.env_gpt4 "GPT4" "http://gpt4")
    as (m & _ & Hget & _ & Hkey & _ & Htags & Hrest).
  - left; reflexivity.
  - discriminate.
  - reflexivity.
  - discriminate.
  - destruct Hrest as (_ & Hname & _ & Htype & _ & Hpath).
    + intros env_var env_value group1 [Heq|[]] _ _ _.
      injection Heq as <- <-; split; reflexivity.
    + exists m; repeat split.
      * exact Hget.
      * exact Hkey.
      * exact Htags.
      * apply Hname; reflexivity.
      * apply Htype; reflexivity.
      * exact Hpath.
Defined.

(** C3 fails on [updated_at] when the clock reads at the update what it
    read at the registration: the timestamp stays where it was. *)
Lemma updated_at_same_instant :
  exists model model' : Model (D := Sample.decls),
    Dict.get "m1" (_registered_models Cases.with_m1) = Some model
    /\ fst (update_model [] (Sample.frozen 5) "m1" (Sample.rename "n")
              Cases.with_m1) = Return (Some model')
    /\ updated_at model' = updated_at model
    /\ ~ (updated_at model < updated_at model')%Z.
Proof.
  do 2 eexists; split; [reflexivity|].
  split; [reflexivity|].
  split; [reflexivity|].
  discriminate.
Qed.

Lemma update_model_given_fields_witness :
  exists (model model' : Model (D := Sample.decls)) self',
    Dict.get "m1" (_registered_models Cases.with_m1) = Some model
    /\ update_model [] (Sample.ticking 6) "m1" (Sample.rename "n")
         Cases.with_m1 = (Return (Some model'), self')
    /\ model_name model' = "n"
    /\ base_url model' = base_url model
    /\ status model' = status model
    /\ (updated_at model < updated_at model')%Z.
Proof.
  eexists.
  destruct (update_model_given_fields (D := Sample.decls) []
              (Sample.ticking 6) "m1" (Sample.rename "n") Cases.with_m1 _
              eq_refl eq_refl)
    as (model' & self' & Hupd & _ & _ & _ & _ & Hname & _ & _ & Hurl & _ & _
        & _ & _ & Hstatus & _ & _ & _ & _ & Hlater).
  exists model', self'.
  split; [reflexivity|].
  split; [exact Hupd|].
  split; [exact Hname|].
  split; [exact Hurl|].
  split; [exact Hstatus|].
  apply Hlater; reflexivity.
Defined.

Lemma reload_replaces_runtime_models_witness :
  let self' :=
    snd (reload_runtime_models [] (Sample.ticking 50)
           (run Cases.register_then_reload)) in
  _registered_models self'
  = _registered_models (run Cases.register_then_reload)
  /\ Dict.mem "gpt4" (_runtime_models (run Cases.register_then_reload)) = true
  /\ Dict.mem "gpt4" (_runtime_models self') = false.
Proof.
  destruct (reload_replaces_runtime_models (D := Sample.decls) []
              (Sample.ticking 50) (run Cases.register_then_reload))
    as (_ & Hreg & Hrun & _).
  split; [exact Hreg|].
  split; [reflexivity|].
  cbv zeta; rewrite Hrun; reflexivity.
Defined.







Lemma runtime_entries_active_witness :
  exists m : Model (D := Sample.decls),
    Dict.get "gpt4" (_runtime_models (run Cases.same_environ_calls)) = Some m
    /\ status m = ACTIVE /\ tags m = ["runtime"] /\ is_active m = true.
Proof.
  eexists; split; [reflexivity|].
  apply (proj2 (runtime_entries_active (D := Sample.decls))
           Cases.same_environ_calls "gpt4").
  reflexivity.
Defined.

Lemma nemo_executor_validates_endpoint_witness :
  Nemo.new (Dict.del "endpoint" Nemo.fixture_config)
  = Raise Nemo.missing_endpoint
  /\ Nemo.new (Dict.set "endpoint" (Nemo.VStr "") Nemo.fixture_config)
     = Raise Nemo.empty_endpoint
  /\ exists executor,
       Nemo.new Nemo.fixture_config = Return executor
       /\ Nemo.endpoint executor = "http://nemo.example.com".
Proof.
  destruct nemo_executor_validates_endpoint
    as (Hmissing & _ & Hempty & _ & _ & Hbuilt).
  split; [apply Hmissing; reflexivity|].
  split; [apply Hempty; reflexivity|].
  eexists; split; [reflexivity|].
  destruct (Hbuilt Nemo.fixture_config _ eq_refl) as (s & Hs & _ & He & _).
  rewrite He; injection Hs as <-; reflexivity.
Defined.

(** * Further properties of the service *)

(** ** More on dictionaries *)

Module DictMore.

Lemma mem_keys {V : Type} (k : string) (d : Dict.t V) :
  Dict.mem k d = true <-> In k (Dict.keys d).
Proof.
  unfold Dict.mem; induction d as [|[k0 v0] d IH]; simpl.
  - split; [discriminate|contradiction].
  - destruct (String.eqb k k0) eqn:E.
    + apply String.eqb_eq in E; subst k0; split; auto.
    + rewrite IH; split; auto.
      intros [H|H]; [|exact H].
      subst k0; rewrite String.eqb_refl in E; discriminate.
Qed.

Lemma mem_false_keys {V : Type} (k : string) (d : Dict.t V) :
  Dict.mem k d = false <-> ~ In k (Dict.keys d).
Proof.
  rewrite <- mem_keys; destruct (Dict.mem k d); split; intros H.
  - discriminate.
  - exfalso; apply H; reflexivity.
  - discriminate.
  - reflexivity.
Qed.

(** Assigning to a key that is absent appends the item. *)
Lemma set_fresh {V : Type} (k : string) (v : V) (d : Dict.t V) :
  Dict.mem k d = false -> Dict.set k v d = (d ++ [(k, v)])%list.
Proof.
  unfold Dict.mem; induction d as [|[k0 v0] d IH]; simpl.
  - reflexivity.
  - destruct (String.eqb k k0); [discriminate|].
    intros H; rewrite (IH H); reflexivity.
Qed.

Lemma del_app_fresh {V : Type} (k : string) (v : V) (d : Dict.t V) :
  Dict.mem k d = false -> Dict.del k (d ++ [(k, v)])%list = d.
Proof.
  unfold Dict.mem; induction d as [|[k0 v0] d IH]; simpl.
  - rewrite String.eqb_refl; reflexivity.
  - destruct (String.eqb k k0); [discriminate|].
    intros H; rewrite (IH H); reflexivity.
Qed.

Lemma NoDup_keys_set {V : Type} (k : string) (v : V) (d : Dict.t V) :
  NoDup (Dict.keys d) -> NoDup (Dict.keys (Dict.set k v d)).
Proof.
  intros Hnd; rewrite DictFacts.keys_set.
  destruct (Dict.mem k d) eqn:E; [exact Hnd|].
  apply mem_false_keys in E.
  apply NoDup_app; [exact Hnd|repeat constructor; auto|].
  intros x Hx [<-|[]]; exact (E Hx).
Qed.

Lemma keys_del_incl {V : Type} (k x : string) (d : Dict.t V) :
  In x (Dict.keys (Dict.del k d)) -> In x (Dict.keys d).
Proof.
  induction d as [|[k0 v0] d IH]; simpl; [auto|].
  destruct (String.eqb k k0); simpl; [auto|].
  intros [H|H]; auto.
Qed.

Lemma NoDup_keys_del {V : Type} (k : string) (d : Dict.t V) :
  NoDup (Dict.keys d) -> NoDup (Dict.keys (Dict.del k d)).
Proof.
  induction d as [|[k0 v0] d IH]; simpl; intros Hnd; [exact Hnd|].
  inversion Hnd as [|? ? Hnotin Hnd']; subst.
  destruct (String.eqb k k0); simpl; [exact Hnd'|].
  constructor; [|apply IH; exact Hnd'].
  intros H; apply Hnotin; revert H; apply keys_del_incl.
Qed.

Lemma get_In {V : Type} (k : string) (v : V) (d : Dict.t V) :
  Dict.get k d = Some v -> In (k, v) d.
Proof.
  induction d as [|[k0 v0] d IH]; simpl; [discriminate|].
  destruct (String.eqb k k0) eqn:E.
  - apply String.eqb_eq in E; subst k0.
    intros H; injection H as <-; left; reflexivity.
  - intros H; right; apply IH; exact H.
Qed.

Lemma In_get {V : Type} (k : string) (v : V) (d : Dict.t V) :
  NoDup (Dict.keys d) -> In (k, v) d -> Dict.get k d = Some v.
Proof.
  induction d as [|[k0 v0] d IH]; simpl; intros Hnd; [contradiction|].
  inversion Hnd as [|? ? Hnotin Hnd']; subst.
  intros [H|H].
  - injection H as <- <-; rewrite String.eqb_refl; reflexivity.
  - destruct (String.eqb k k0) eqn:E; [|apply IH; assumption].
    apply String.eqb_eq in E; subst k0.
    exfalso; apply Hnotin.
    change k with (fst (k, v)); apply in_map; exact H.
Qed.

Lemma Forall_set {V : Type} (P : string * V -> Prop) (k : string) (v : V)
    (d : Dict.t V) :
  Forall P d -> P (k, v) -> Forall P (Dict.set k v d).
Proof.
  intros Hd Hkv; induction d as [|[k0 v0] d IH]; simpl.
  - repeat constructor; exact Hkv.
  - inversion Hd as [|? ? H0 Hd']; subst.
    destruct (String.eqb k k0) eqn:E.
    + apply String.eqb_eq in E; subst k0; constructor; assumption.
    + constructor; [exact H0|apply IH; exact Hd'].
Qed.

Lemma Forall_del {V : Type} (P : string * V -> Prop) (k : string)
    (d : Dict.t V) :
  Forall P d -> Forall P (Dict.del k d).
Proof.
  intros Hd; induction d as [|[k0 v0] d IH]; simpl; [constructor|].
  inversion Hd as [|? ? H0 Hd']; subst.
  destruct (String.eqb k k0); [exact Hd'|].
  constructor; [exact H0|apply IH; exact Hd'].
Qed.

End DictMore.

Section Further.

Context {D : ModelDecls}.

(** ** What a call does to the registered dictionary *)

Lemma seen_registered (env : Env) (now : Clock) (self : ModelService) :
  _registered_models (seen env now self) = _registered_models self.
Proof. apply _initialize_registered. Qed.

Lemma seen_is_initialized (env : Env) (now : Clock) (self : ModelService) :
  _initialized (seen env now self) = true.
Proof. apply _initialize_initialized. Qed.

(** Whatever the call, the registered dictionary is left alone, gains the
    model of a request under a key it did not have, has the model under
    one of its keys updated, or loses the item of a key. *)
Lemma step_registered (self : ModelService) (c : Call) :
  let reg := _registered_models self in
  let reg' := _registered_models (step self c) in
  reg' = reg
  \/ (exists request t,
        Dict.mem (req_model_id request) reg = false
        /\ reg' = Dict.set (req_model_id request)
                    (model_of_request request t) reg)
  \/ (exists id request t model,
        Dict.get id reg = Some model
        /\ reg' = Dict.set id (apply_update request t model) reg)
  \/ (exists id, reg' = Dict.del id reg).
Proof.
  cbv zeta; destruct c as [env now op]; unfold step.
  cbn [call_env call_clock call_op].
  assert (Hreg := seen_registered env now self).
  destruct op as [|request|id request|id|id|b|].
  - left; exact Hreg.
  - rewrite register_model_eq; cbv zeta.
    destruct (Dict.mem _ (_registered_models (seen env now self))) eqn:E1;
      [left; exact Hreg|].
    destruct (Dict.mem _ (_runtime_models (seen env now self)));
      [left; exact Hreg|].
    right; left; simpl; rewrite Hreg in *.
    do 2 eexists; split; [exact E1|reflexivity].
  - rewrite update_model_eq; cbv zeta.
    destruct (Dict.mem _ (_runtime_models (seen env now self)));
      [left; exact Hreg|].
    destruct (Dict.get id (_registered_models (seen env now self)))
      as [model|] eqn:E1; [|left; exact Hreg].
    right; right; left; simpl; rewrite Hreg in *.
    do 4 eexists; split; [exact E1|reflexivity].
  - rewrite delete_model_eq; cbv zeta.
    destruct (Dict.mem _ (_runtime_models (seen env now self)));
      [left; exact Hreg|].
    destruct (Dict.mem _ (_registered_models (seen env now self)));
      [|left; exact Hreg].
    right; right; right; simpl; rewrite Hreg.
    eexists; reflexivity.
  - rewrite get_model_by_id_eq; cbv zeta.
    destruct (Dict.get id (_registered_models (seen env now self)));
      left; exact Hreg.
  - rewrite get_all_models_eq; left; exact Hreg.
  - rewrite reload_runtime_models_eq; left; reflexivity.
Qed.

(** ** Keys and identifiers *)

Lemma scan_environ_NoDup (env : Env) (now : Clock) (items : Env) :
  forall acc k,
    NoDup (Dict.keys acc) ->
    NoDup (Dict.keys (fst (scan_environ env now items acc k))).
Proof.
  induction items as [|[env_var env_value] items IH]; intros acc k H; simpl.
  - exact H.
  - destruct (runtime_model_of env now k env_var env_value).
    + apply IH, DictMore.NoDup_keys_set, H.
    + apply IH, H.
Qed.

Lemma scan_environ_Forall (P : string * Model -> Prop)
    (env : Env) (now : Clock) (items : Env) :
  (forall k env_var env_value m,
      runtime_model_of env now k env_var env_value = Some m ->
      P (model_id m, m)) ->
  forall acc k,
    Forall P acc -> Forall P (fst (scan_environ env now items acc k)).
Proof.
  intros Hbuilt.
  induction items as [|[env_var env_value] items IH]; intros acc k H; simpl.
  - exact H.
  - destruct (runtime_model_of env now k env_var env_value) as [m|] eqn:E.
    + apply IH, DictMore.Forall_set; [exact H|].
      apply (Hbuilt _ _ _ _ E).
    + apply IH, H.
Qed.

Lemma well_keyed_new : well_keyed __init__.
Proof. repeat split; constructor. Qed.

Lemma well_keyed_step (self : ModelService) (c : Call) :
  well_keyed self -> well_keyed (step self c).
Proof.
  intros (Hnr & Hnt & Hkr & Hkt).
  assert (Hreg := step_registered self c); cbv zeta in Hreg.
  assert (Hrun := step_runtime self c).
  unfold well_keyed.
  split; [|split; [|split]].
  - destruct Hreg as [->|[(r & t & _ & ->)|[(id & r & t & m & _ & ->)|(id & ->)]]].
    + exact Hnr.
    + apply DictMore.NoDup_keys_set, Hnr.
    + apply DictMore.NoDup_keys_set, Hnr.
    + apply DictMore.NoDup_keys_del, Hnr.
  - destruct Hrun as [->| ->]; [exact Hnt|].
    apply scan_environ_NoDup; constructor.
  - unfold keyed_by_id.
    destruct Hreg as [->|[(r & t & _ & ->)|[(id & r & t & m & Hm & ->)|(id & ->)]]].
    + exact Hkr.
    + apply DictMore.Forall_set; [exact Hkr|reflexivity].
    + apply DictMore.Forall_set; [exact Hkr|]; simpl.
      apply DictMore.get_In in Hm.
      exact (proj1 (Forall_forall _ _) Hkr _ Hm).
    + apply DictMore.Forall_del, Hkr.
  - destruct Hrun as [->| ->]; [exact Hkt|].
    apply scan_environ_Forall; [|constructor].
    intros; reflexivity.
Qed.

Lemma well_keyed_run (calls : list Call) : well_keyed (run calls).
Proof.
  apply run_invariant; [exact well_keyed_new|].
  intros self c; apply well_keyed_step.
Qed.

Lemma seen_as_step (env : Env) (now : Clock) (self : ModelService) :
  seen env now self
  = step self {| call_env := env; call_clock := now; call_op := OpInitialize |}.
Proof. reflexivity. Qed.

Lemma keyed_by_id_get (d : Dict.t Model) (id : string) (m : Model) :
  keyed_by_id d -> Dict.get id d = Some m -> model_id m = id.
Proof.
  intros Hk Hget; apply DictMore.get_In in Hget.
  exact (proj1 (Forall_forall _ _) Hk _ Hget).
Qed.

(** X1. After any sequence of calls, neither dictionary has an identifier
    twice, each holds every model under the model's own [model_id], and
    a lookup by identifier returns nothing or a model of that
    identifier. *)
Theorem registries_keyed_by_model_id (calls : list Call) :
  let self := run calls in
  NoDup (Dict.keys (_registered_models self))
  /\ NoDup (Dict.keys (_runtime_models self))
  /\ (forall id m,
        Dict.get id (_registered_models self) = Some m -> model_id m = id)
  /\ (forall id m,
        Dict.get id (_runtime_models self) = Some m -> model_id m = id)
  /\ (forall env now id m,
        fst (get_model_by_id env now id self) = Return (Some m) ->
        model_id m = id).
Proof.
  cbv zeta.
  destruct (well_keyed_run calls) as (Hnr & Hnt & Hkr & Hkt).
  repeat apply conj; try assumption.
  - intros id m; apply keyed_by_id_get, Hkr.
  - intros id m; apply keyed_by_id_get, Hkt.
  - intros env now id m; rewrite get_model_by_id_eq; cbv zeta.
    assert (Hseen : well_keyed (seen env now (run calls))).
    { rewrite seen_as_step; apply well_keyed_step, well_keyed_run. }
    destruct Hseen as (_ & _ & Hkr' & Hkt').
    destruct (Dict.get id (_registered_models (seen env now (run calls))))
      as [m'|] eqn:E; simpl.
    + intros H; injection H as <-; exact (keyed_by_id_get _ _ _ Hkr' E).
    + intros H; injection H as H; exact (keyed_by_id_get _ _ _ Hkt' H).
Qed.

(** ** Deleting *)

(** X2. After any sequence of calls, an identifier whose deletion has
    returned [True] is found by no later lookup, whatever the environment
    then. *)
Theorem get_after_delete (calls : list Call) (env : Env) (now : Clock)
    (id : string) (self' : ModelService) :
  delete_model env now id (run calls) = (Return true, self') ->
  forall env' now',
    get_model_by_id env' now' id self' = (Return None, self').
Proof.
  rewrite delete_model_eq; cbv zeta.
  assert (Hseen : well_keyed (seen env now (run calls))).
  { rewrite seen_as_step; apply well_keyed_step, well_keyed_run. }
  assert (Hinit := seen_is_initialized env now (run calls)).
  destruct (Dict.mem id (_runtime_models (seen env now (run calls)))) eqn:Erun;
    [discriminate|].
  destruct (Dict.mem id (_registered_models (seen env now (run calls))));
    [|discriminate].
  intros H; injection H as <-; intros env' now'.
  rewrite get_model_by_id_eq; cbv zeta.
  rewrite seen_initialized by exact Hinit; simpl.
  destruct Hseen as (Hnr & _).
  rewrite (DictFacts.get_del_same id _ Hnr).
  unfold Dict.mem in Erun.
  destruct (Dict.get id (_runtime_models (seen env now (run calls))));
    [discriminate|reflexivity].
Qed.

(** ** The shape of the runtime models *)

Lemma url_variable_group_not_empty (env_var group1 : string) :
  url_variable_group env_var = Some group1 -> group1 <> "".
Proof.
  unfold url_variable_group, re_match_group1.
  destruct (_ && _); [|discriminate].
  destruct (PyStr.startswith _ _); [|discriminate].
  destruct (PyStr.first_line _) as [|c rest]; [discriminate|].
  destruct (PyStr.rfind _ _); [|discriminate].
  intros H; injection H as <-; discriminate.
Qed.

(** X3. After any sequence of calls, an entry of the runtime dictionary has
    an identifier that is not empty and is the [str.lower] form of a text
    that is not empty, a URL that is not empty,
    [api_key_required = True], the description
    ["Runtime-specified model: " + model_name] and the default
    capabilities and configuration. *)
Theorem runtime_entries_shape (calls : list Call) (id : string) (m : Model) :
  Dict.get id (_runtime_models (run calls)) = Some m ->
  id <> ""
  /\ (exists group1, group1 <> "" /\ id = str_lower group1)
  /\ base_url m <> ""
  /\ api_key_required m = true
  /\ description m = "Runtime-specified model: " ++ model_name m
  /\ capabilities m = ModelCapabilities_default
  /\ config m = ModelConfig_default.
Proof.
  set (P := fun item : string * Model =>
              fst item <> ""
              /\ (exists group1, group1 <> "" /\ fst item = str_lower group1)
              /\ base_url (snd item) <> ""
              /\ api_key_required (snd item) = true
              /\ description (snd item)
                 = "Runtime-specified model: " ++ model_name (snd item)
              /\ capabilities (snd item) = ModelCapabilities_default
              /\ config (snd item) = ModelConfig_default).
  assert (H : Forall P (_runtime_models (run calls))).
  { apply (run_invariant (fun self => Forall P (_runtime_models self))).
    - constructor.
    - intros self c IH.
      destruct (step_runtime self c) as [-> | ->]; [exact IH|].
      apply scan_environ_Forall; [|constructor].
      intros k v x m' Hm'.
      destruct (runtime_model_of_inv _ _ _ _ _ _ Hm') as (g & Hg & Hs & ->).
      apply url_variable_group_not_empty in Hg.
      unfold P; simpl; repeat apply conj; try reflexivity.
      + intros Hempty; apply Hg, str_lower_empty, Hempty.
      + exists g; split; [exact Hg|reflexivity].
      + exact Hs. }
  intros Hget; apply DictMore.get_In in Hget.
  exact (proj1 (Forall_forall _ _) H _ Hget).
Qed.

(** ** The environment is read once *)

Lemma reading_initialized (env : Env) (now : Clock) (self : ModelService) :
  _initialized self = true -> reading env now self = 0.
Proof.
  intros H; unfold reading; rewrite _initialize_done by exact H; reflexivity.
Qed.

(** X4. Once a call has initialised the service, the environment of a later
    registration, update, deletion, lookup or listing has no part in what
    the call returns nor in the service it leaves, and the call reads the
    clock at most once, whatever the environment holds by then. *)
Theorem environment_read_once (env : Env) (now : Clock) (self : ModelService)
    (env1 env2 : Env) (now' : Clock) :
  let self0 := seen env now self in
  seen env1 now' self0 = self0
  /\ reading env1 now' self0 = 0
  /\ (forall request,
        register_model env1 now' request self0
        = register_model env2 now' request self0)
  /\ (forall id request,
        update_model env1 now' id request self0
        = update_model env2 now' id request self0)
  /\ (forall id, delete_model env1 now' id self0 = delete_model env2 now' id self0)
  /\ (forall id,
        get_model_by_id env1 now' id self0 = get_model_by_id env2 now' id self0)
  /\ (forall include_inactive,
        get_all_models env1 now' include_inactive self0
        = get_all_models env2 now' include_inactive self0).
Proof.
  cbv zeta.
  assert (Hinit := seen_is_initialized env now self).
  assert (H1 := seen_initialized env1 now' _ Hinit).
  assert (H2 := seen_initialized env2 now' _ Hinit).
  assert (R1 := reading_initialized env1 now' _ Hinit).
  assert (R2 := reading_initialized env2 now' _ Hinit).
  repeat apply conj; try assumption; intros.
  - rewrite !register_model_eq; cbv zeta; rewrite H1, H2, R1, R2; reflexivity.
  - rewrite !update_model_eq; cbv zeta; rewrite H1, H2, R1, R2; reflexivity.
  - rewrite !delete_model_eq; cbv zeta; rewrite H1, H2; reflexivity.
  - rewrite !get_model_by_id_eq; cbv zeta; rewrite H1, H2; reflexivity.
  - rewrite !get_all_models_eq; cbv zeta; rewrite H1, H2; reflexivity.
Qed.

(** X5. [reload_runtime_models] leaves [_initialized] as it was: on a service
    that no call has initialised yet, the call that follows a reload
    scans its own environment again, and what the reload had found is
    dropped. *)
Theorem reload_does_not_initialize (env1 env2 : Env) (now1 now2 : Clock)
    (self : ModelService) :
  let reloaded := snd (reload_runtime_models env1 now1 self) in
  _initialized reloaded = _initialized self
  /\ (_initialized self = false ->
      _runtime_models (seen env2 now2 reloaded)
      = fst (scan_environ env2 now2 env2 Dict.empty 0))
  /\ (_initialized self = true ->
      _runtime_models (seen env2 now2 reloaded)
      = fst (scan_environ env1 now1 env1 Dict.empty 0)).
Proof.
  cbv zeta; rewrite reload_runtime_models_eq; simpl.
  repeat apply conj.
  - reflexivity.
  - intros H; unfold seen; rewrite _initialize_fresh by exact H; reflexivity.
  - intros H; rewrite seen_initialized by exact H; reflexivity.
Qed.

(** ** Storing and looking up *)

Lemma with_registered_same (self : ModelService) :
  with_registered (_registered_models self) self = self.
Proof. destruct self; reflexivity. Qed.

(** X6. The model that a registration or an update returns is the one a
    later lookup of the identifier returns, under any environment, and
    the lookup changes nothing. *)
Theorem get_after_register_or_update (env : Env) (now : Clock)
    (self self' : ModelService) (model : Model) :
  (forall request,
      register_model env now request self = (Return model, self') ->
      forall env' now',
        get_model_by_id env' now' (req_model_id request) self'
        = (Return (Some model), self'))
  /\ (forall id request,
        update_model env now id request self = (Return (Some model), self') ->
        forall env' now',
          get_model_by_id env' now' id self' = (Return (Some model), self')).
Proof.
  assert (Hinit := seen_is_initialized env now self).
  split.
  - intros request; rewrite register_model_eq; cbv zeta.
    destruct (Dict.mem _ (_registered_models _)); [discriminate|].
    destruct (Dict.mem _ (_runtime_models _)); [discriminate|].
    intros H; injection H as <- <-; intros env' now'.
    rewrite get_model_by_id_eq; cbv zeta.
    rewrite seen_initialized by exact Hinit; simpl.
    rewrite DictFacts.get_set_same; reflexivity.
  - intros id request; rewrite update_model_eq; cbv zeta.
    destruct (Dict.mem _ (_runtime_models _)); [discriminate|].
    destruct (Dict.get id (_registered_models _)); [|discriminate].
    intros H; injection H as <- <-; intros env' now'.
    rewrite get_model_by_id_eq; cbv zeta.
    rewrite seen_initialized by exact Hinit; simpl.
    rewrite DictFacts.get_set_same; reflexivity.
Qed.

(** X7. Deleting the identifier of a registration that has just succeeded
    returns [True] and gives back the service the registration worked
    on. *)
Theorem delete_after_register (env : Env) (now : Clock)
    (request : ModelRegistrationRequest) (self self' : ModelService)
    (model : Model) :
  register_model env now request self = (Return model, self') ->
  forall env' now',
    delete_model env' now' (req_model_id request) self'
    = (Return true, seen env now self).
Proof.
  assert (Hinit := seen_is_initialized env now self).
  rewrite register_model_eq; cbv zeta.
  destruct (Dict.mem _ (_registered_models _)) eqn:Ereg; [discriminate|].
  destruct (Dict.mem _ (_runtime_models _)) eqn:Erun; [discriminate|].
  intros H; injection H as <- <-; intros env' now'.
  rewrite delete_model_eq; cbv zeta.
  rewrite seen_initialized by exact Hinit; simpl.
  rewrite Erun, DictFacts.mem_set, String.eqb_refl; simpl.
  rewrite (DictMore.set_fresh _ _ _ Ereg), (DictMore.del_app_fresh _ _ _ Ereg).
  unfold with_registered; simpl.
  destruct (seen env now self); reflexivity.
Qed.

(** ** Failures *)

(** X8. A registration, an update or a deletion that raises leaves the
    service as its lazy initialisation left it, and raises for one reason
    only: a registration because the identifier is registered or is a
    runtime one, an update or a deletion because it is a runtime one. *)
Theorem raise_leaves_service (env : Env) (now : Clock) (self : ModelService)
    (e : Exn) (self' : ModelService) :
  let self0 := seen env now self in
  (forall request,
      register_model env now request self = (Raise e, self') ->
      self' = self0
      /\ ((e = already_exists (req_model_id request)
           /\ Dict.mem (req_model_id request) (_registered_models self0) = true)
          \/ (e = runtime_conflict (req_model_id request)
              /\ Dict.mem (req_model_id request) (_runtime_models self0) = true)))
  /\ (forall id request,
        update_model env now id request self = (Raise e, self') ->
        self' = self0 /\ e = cannot_update
        /\ Dict.mem id (_runtime_models self0) = true)
  /\ (forall id,
        delete_model env now id self = (Raise e, self') ->
        self' = self0 /\ e = cannot_delete
        /\ Dict.mem id (_runtime_models self0) = true).
Proof.
  cbv zeta; repeat apply conj.
  - intros request; rewrite register_model_eq; cbv zeta.
    destruct (Dict.mem _ (_registered_models _)) eqn:Ereg.
    + intros H; injection H as <- <-; auto.
    + destruct (Dict.mem _ (_runtime_models _)) eqn:Erun; [|discriminate].
      intros H; injection H as <- <-; auto.
  - intros id request; rewrite update_model_eq; cbv zeta.
    destruct (Dict.mem _ (_runtime_models _)) eqn:Erun.
    + intros H; injection H as <- <-; auto.
    + destruct (Dict.get id (_registered_models _)); discriminate.
  - intros id; rewrite delete_model_eq; cbv zeta.
    destruct (Dict.mem _ (_runtime_models _)) eqn:Erun.
    + intros H; injection H as <- <-; auto.
    + destruct (Dict.mem id (_registered_models _)); discriminate.
Qed.

(** ** Listing everything *)

Lemma registered_summaries_all (self : ModelService) :
  registered_summaries true self
  = map summary_of (Dict.values (_registered_models self)).
Proof.
  unfold registered_summaries; f_equal.
  induction (Dict.values (_registered_models self)) as [|m l IH].
  - reflexivity.
  - change (m :: filter (fun model => true || is_active model) l = m :: l).
    rewrite IH; reflexivity.
Qed.


(** X10. A registration that succeeds puts the summary of the new model at
    the end of the registered part of the full listing and raises the
    total by one. *)
Theorem listing_after_register (env : Env) (now : Clock)
    (request : ModelRegistrationRequest) (self self' : ModelService)
    (model : Model) :
  register_model env now request self = (Return model, self') ->
  forall env' now',
    exists before after,
      fst (get_all_models env now true self) = Return before
      /\ fst (get_all_models env' now' true self') = Return after
      /\ models after
         = (registered_summaries true (seen env now self)
            ++ [summary_of model]
            ++ runtime_models before)%list
      /\ runtime_models after = runtime_models before
      /\ total_models after = S (total_models before).
Proof.
  assert (Hinit := seen_is_initialized env now self).
  rewrite register_model_eq; cbv zeta.
  destruct (Dict.mem _ (_registered_models _)) eqn:Ereg; [discriminate|].
  destruct (Dict.mem _ (_runtime_models _)) eqn:Erun; [discriminate|].
  intros H; injection H as <- <-; intros env' now'.
  rewrite !get_all_models_eq; cbv zeta.
  rewrite (seen_initialized env' now') by exact Hinit.
  do 2 eexists; split; [reflexivity|]; split; [reflexivity|]; simpl.
  rewrite !registered_summaries_all; simpl.
  rewrite (DictMore.set_fresh _ _ _ Ereg).
  unfold runtime_summaries, Dict.values; simpl.
  rewrite !map_app; simpl.
  repeat apply conj.
  - rewrite <- app_assoc; reflexivity.
  - reflexivity.
  - rewrite !length_app, !length_map; simpl; lia.
Qed.

(** ** The names the scan accepts *)

Lemma append_assoc (a b c : string) : (a ++ b) ++ c = a ++ b ++ c.
Proof. induction a as [|x a IH]; simpl; [|rewrite IH]; reflexivity. Qed.

Lemma append_empty_r (a : string) : a ++ "" = a.
Proof. induction a as [|x a IH]; simpl; [|rewrite IH]; reflexivity. Qed.

Lemma prefix_drop (p s : string) :
  String.prefix p s = true -> s = p ++ PyStr.drop (String.length p) s.
Proof.
  revert s; induction p as [|x p IH]; intros s.
  - reflexivity.
  - destruct s as [|y s]; simpl; [discriminate|].
    destruct (ascii_dec x y) as [<-|]; [|discriminate].
    intros H; rewrite <- (IH s H); reflexivity.
Qed.

Lemma prefix_app_same (p x y : string) :
  String.prefix (p ++ x) (p ++ y) = String.prefix x y.
Proof.
  induction p as [|c p IH]; simpl; [reflexivity|].
  destruct (ascii_dec c c); [exact IH|contradiction].
Qed.

Lemma first_line_split (s : string) :
  exists r, s = PyStr.first_line s ++ r.
Proof.
  induction s as [|c s [r IH]]; simpl.
  - exists ""; reflexivity.
  - destruct (Ascii.eqb c PyStr.newline).
    + exists (String c s); reflexivity.
    + exists r; simpl; rewrite <- IH; reflexivity.
Qed.

Lemma first_line_no_newline (s : string) :
  PyStr.contains_char PyStr.newline (PyStr.first_line s) = false.
Proof.
  induction s as [|c s IH]; [reflexivity|].
  cbn [PyStr.first_line].
  destruct (Ascii.eqb c PyStr.newline) eqn:E; [reflexivity|].
  cbn [PyStr.contains_char]; rewrite Ascii.eqb_sym, E, IH; reflexivity.
Qed.

Lemma first_line_whole (s : string) :
  PyStr.contains_char PyStr.newline s = false -> PyStr.first_line s = s.
Proof.
  intros H; rewrite <- (append_empty_r s) at 1.
  rewrite (first_line_app s "" H); apply append_empty_r.
Qed.

Lemma contains_char_app (c : ascii) (a b : string) :
  PyStr.contains_char c (a ++ b)
  = PyStr.contains_char c a || PyStr.contains_char c b.
Proof.
  induction a as [|x a IH]; [reflexivity|].
  change (String x a ++ b) with (String x (a ++ b)).
  cbn [PyStr.contains_char]; rewrite IH, orb_assoc; reflexivity.
Qed.

Lemma take_drop (i : nat) (s : string) : s = PyStr.take i s ++ PyStr.drop i s.
Proof.
  revert s; induction i as [|i IH]; intros s.
  - destruct s; reflexivity.
  - destruct s as [|c s]; [reflexivity|].
    simpl; rewrite <- IH; reflexivity.
Qed.

Lemma rfind_found (pat s : string) (i : nat) :
  PyStr.rfind pat s = Some i -> String.prefix pat (PyStr.drop i s) = true.
Proof.
  revert i; induction s as [|c s IH]; intros i; [discriminate|].
  cbn [PyStr.rfind].
  destruct (PyStr.rfind pat s) as [j|].
  - intros H; injection H as <-; simpl; apply IH; reflexivity.
  - destruct (String.prefix pat (String c s)) eqn:E; [|discriminate].
    intros H; injection H as <-; exact E.
Qed.

Lemma endswith_step (suf : string) (c : ascii) (s : string) :
  PyStr.endswith suf (String c s) = true ->
  String c s = suf \/ PyStr.endswith suf s = true.
Proof.
  rewrite endswith_eq.
  destruct (String.eqb (String c s) suf) eqn:E.
  - left; apply String.eqb_eq; exact E.
  - right; assumption.
Qed.

Lemma endswith_inv (suf s : string) :
  PyStr.endswith suf s = true -> exists u, s = u ++ suf.
Proof.
  induction s as [|c s IH]; rewrite endswith_eq.
  - destruct (String.eqb "" suf) eqn:E; [|discriminate].
    apply String.eqb_eq in E; subst suf; exists ""; reflexivity.
  - destruct (String.eqb (String c s) suf) eqn:E.
    + apply String.eqb_eq in E; subst suf; exists ""; reflexivity.
    + intros H; destruct (IH H) as [u ->].
      exists (String c u); reflexivity.
Qed.

(** What is left of a name that the guard accepts, past the prefix and
    one more character, ends with [_URL] when the search finds it. *)
Lemma guarded_rest_endswith (c : ascii) (rest : string) (i : nat) :
  PyStr.endswith "_URL" ("EVAL_HUB_MODEL_" ++ String c rest) = true ->
  PyStr.rfind "_URL" rest = Some i ->
  PyStr.endswith "_URL" rest = true.
Proof.
  intros H Hfind.
  change ("EVAL_HUB_MODEL_" ++ String c rest)
    with (String "E" (String "V" (String "A" (String "L" (String "_"
         (String "H" (String "U" (String "B" (String "_" (String "M"
         (String "O" (String "D" (String "E" (String "L" (String "_"
         (String c rest)))))))))))))))) in H.
  do 14 (apply endswith_step in H; destruct H as [H|H]; [discriminate H|]).
  apply endswith_step in H; destruct H as [H|H].
  { injection H as _ ->; discriminate Hfind. }
  apply endswith_step in H; destruct H as [H|H]; [|exact H].
  injection H as _ ->; discriminate Hfind.
Qed.

(** X11. A variable the scan goes on with gives a group that is not empty and
    has no line feed, and its name starts with the prefix, the group and
    [_URL]; a name without a line feed is accepted with group [g] exactly
    when it is [EVAL_HUB_MODEL_<g>_URL] with [g] not empty. *)
Theorem url_variable_group_names (env_var g : string) :
  (url_variable_group env_var = Some g ->
   g <> ""
   /\ PyStr.contains_char PyStr.newline g = false
   /\ PyStr.startswith ("EVAL_HUB_MODEL_" ++ g ++ "_URL") env_var = true)
  /\ (PyStr.contains_char PyStr.newline env_var = false ->
      (url_variable_group env_var = Some g <->
       g <> "" /\ env_var = "EVAL_HUB_MODEL_" ++ g ++ "_URL")).
Proof.
  assert (Hshape :
            url_variable_group env_var = Some g ->
            exists c rest i tail,
              env_var = "EVAL_HUB_MODEL_" ++ String c rest ++ tail
              /\ PyStr.first_line (PyStr.drop 15 env_var) = String c rest
              /\ PyStr.rfind "_URL" rest = Some i
              /\ g = String c (PyStr.take i rest)
              /\ PyStr.endswith "_URL" env_var = true).
  { unfold url_variable_group, re_match_group1.
    destruct (PyStr.startswith "EVAL_HUB_MODEL_" env_var) eqn:Estart;
      [|discriminate].
    destruct (PyStr.endswith "_URL" env_var) eqn:Eend; [|discriminate].
    cbn [andb].
    destruct (PyStr.first_line (PyStr.drop 15 env_var)) as [|c rest] eqn:Eline;
      [discriminate|].
    destruct (PyStr.rfind "_URL" rest) as [i|] eqn:Efind; [|discriminate].
    intros H; injection H as <-.
    destruct (first_line_split (PyStr.drop 15 env_var)) as [tail Htail].
    rewrite Eline in Htail.
    exists c, rest, i, tail; repeat split; try assumption.
    rewrite (prefix_drop _ _ Estart) at 1.
    change (String.length "EVAL_HUB_MODEL_") with 15.
    rewrite Htail at 1; reflexivity. }
  split.
  - intros H; destruct (Hshape H) as (c & rest & i & tail & Hvar & Hline & Hfind & -> & _).
    split; [discriminate|].
    split.
    + assert (Hnl := first_line_no_newline (PyStr.drop 15 env_var)).
      rewrite Hline in Hnl.
      rewrite (take_drop i rest) in Hnl.
      change (String c (PyStr.take i rest ++ PyStr.drop i rest))
        with (String c (PyStr.take i rest) ++ PyStr.drop i rest) in Hnl.
      rewrite contains_char_app in Hnl.
      apply orb_false_iff in Hnl as [Hnl _]; exact Hnl.
    + apply rfind_found in Hfind.
      apply prefix_drop in Hfind.
      change (String.length "_URL") with 4 in Hfind.
      assert (Hrest : rest = PyStr.take i rest ++ "_URL"
                             ++ PyStr.drop 4 (PyStr.drop i rest)).
      { rewrite <- Hfind; apply take_drop. }
      clear Hshape Hfind Hline.
      remember (PyStr.take i rest) as a eqn:Ha.
      remember (PyStr.drop 4 (PyStr.drop i rest)) as b eqn:Hb.
      clear Ha Hb.
      rewrite Hvar, Hrest; unfold PyStr.startswith.
      rewrite prefix_app_same.
      change (String c (a ++ "_URL" ++ b) ++ tail)
        with (String c ((a ++ "_URL" ++ b) ++ tail)).
      rewrite <- (append_assoc a "_URL" b).
      rewrite (append_assoc (a ++ "_URL") b tail).
      exact (startswith_app (String c a ++ "_URL") (b ++ tail)).
  - intros Hnl; split.
    + intros H; destruct (Hshape H) as (c & rest & i & tail & Hvar & Hline & Hfind & -> & Hend).
      split; [discriminate|].
      assert (Hdrop : PyStr.drop 15 env_var = String c rest ++ tail).
      { rewrite Hvar; reflexivity. }
      assert (Hnl' : PyStr.contains_char PyStr.newline (PyStr.drop 15 env_var) = false).
      { rewrite Hvar in Hnl.
        rewrite contains_char_app in Hnl.
        apply orb_false_iff in Hnl as [_ Hnl].
        rewrite Hdrop; exact Hnl. }
      rewrite (first_line_whole _ Hnl'), Hdrop in Hline.
      assert (Htail : tail = "").
      { injection Hline as Hline.
        clear -Hline; revert Hline.
        induction rest as [|x rest IH]; simpl; intros H.
        - exact H.
        - injection H as H; apply IH; exact H. }
      subst tail; rewrite append_empty_r in Hvar.
      rewrite Hvar in Hend.
      destruct (endswith_inv _ _ (guarded_rest_endswith c rest i Hend Hfind))
        as [u Hu].
      subst rest.
      rewrite rfind_url_app in Hfind; injection Hfind as <-.
      rewrite take_length_app; exact Hvar.
    + intros [Hne ->].
      apply url_variable_group_of_id; [exact Hne|].
      rewrite !contains_char_app in Hnl.
      apply orb_false_iff in Hnl as [_ Hnl].
      apply orb_false_iff in Hnl as [Hnl _]; exact Hnl.
Qed.

End Further.

(** ** Several variables for one identifier *)

Section FurtherScan.

Context {D : ModelDecls}.

Lemma scan_environ_app (env : Env) (now : Clock) (items1 items2 : Env) :
  forall acc k,
    scan_environ env now (items1 ++ items2)%list acc k
    = scan_environ env now items2
        (fst (scan_environ env now items1 acc k))
        (snd (scan_environ env now items1 acc k)).
Proof.
  induction items1 as [|[env_var env_value] items1 IH]; intros acc k; simpl.
  - reflexivity.
  - destruct (runtime_model_of env now k env_var env_value); apply IH.
Qed.

(** Items that are scanned to other identifiers leave the entry of [id]
    as it is. *)
Lemma scan_environ_other (env : Env) (now : Clock) (id : string)
    (items : Env) :
  (forall env_var env_value group1,
      In (env_var, env_value) items ->
      url_variable_group env_var = Some group1 ->
      str_strip env_value <> "" ->
      str_lower group1 <> id) ->
  forall acc k,
    Dict.get id (fst (scan_environ env now items acc k)) = Dict.get id acc.
Proof.
  induction items as [|[env_var env_value] items IH]; intros Hother acc k;
    simpl.
  - reflexivity.
  - destruct (runtime_model_of env now k env_var env_value) as [m|] eqn:E.
    + rewrite IH by (intros v x g Hin; apply Hother; right; exact Hin).
      apply DictFacts.get_set_other.
      destruct (runtime_model_of_inv _ _ _ _ _ _ E) as (g & Hg & Hs & ->).
      simpl; intros Heq; symmetry in Heq; revert Heq.
      apply (Hother env_var env_value g); [left; reflexivity| |]; assumption.
    + apply IH; intros v x g Hin; apply Hother; right; exact Hin.
Qed.

(** X12. When several URL variables are scanned to one identifier, the entry
    of the identifier is the model of the one that comes last in the
    environment: its stripped value as URL, and the name, type and path
    of the siblings of its own spelling of the identifier. *)
Theorem last_url_variable_wins (env : Env) (now : Clock)
    (before after : Env) (env_var env_value group1 : string) :
  env = (before ++ (env_var, env_value) :: after)%list ->
  url_variable_group env_var = Some group1 ->
  str_strip env_value <> "" ->
  (forall env_var' env_value' group1',
      In (env_var', env_value') after ->
      url_variable_group env_var' = Some group1' ->
      str_strip env_value' <> "" ->
      str_lower group1' <> str_lower group1) ->
  exists m,
    Dict.get (str_lower group1) (_runtime_models (seen env now __init__))
    = Some m
    /\ base_url m = str_strip env_value
    /\ model_name m
       = getenv_default env ("EVAL_HUB_MODEL_" ++ group1 ++ "_NAME")
           ("Runtime Model " ++ str_upper (str_lower group1))
    /\ model_type m
       = parse_model_type
           (getenv_default env ("EVAL_HUB_MODEL_" ++ group1 ++ "_TYPE")
              "openai-compatible")
    /\ model_path m = getenv env ("EVAL_HUB_MODEL_" ++ group1 ++ "_PATH").
Proof.
  intros Henv Hgroup Hvalue Hafter.
  rewrite seen_new_runtime.
  generalize Henv; generalize env at 1 3 as items; intros items ->.
  rewrite scan_environ_app.
  set (acc := fst (scan_environ env now before Dict.empty 0)).
  set (k := snd (scan_environ env now before Dict.empty 0)).
  cbn [scan_environ].
  destruct (runtime_model_of_some env now k _ _ _ Hgroup Hvalue)
    as (m & Hm & Hid).
  rewrite Hm, (scan_environ_other _ _ _ _ Hafter), Hid.
  rewrite DictFacts.get_set_same.
  exists m; split; [reflexivity|].
  destruct (runtime_model_of_inv _ _ _ _ _ _ Hm) as (g & Hg & _ & ->).
  assert (g = group1) by congruence; subst g.
  repeat split.
Qed.

End FurtherScan.

(** ** Searching *)

Section FurtherSearch.

Context {D : ModelDecls} {S : SearchDecls D}.

Lemma search_models_eq (env : Env) (now : Clock)
    (type_filter : option ModelType) (status_filter : option ModelStatus)
    (tags_filter : option (list string)) (self : ModelService) :
  search_models env now type_filter status_filter tags_filter self
  = let self0 := seen env now self in
    (Return
       (filter (search_keeps type_filter status_filter tags_filter)
          (Dict.values (_registered_models self0)
           ++ Dict.values (_runtime_models self0))%list), self0).
Proof.
  unfold search_models, seen.
  destruct (_initialize env now 0 self); reflexivity.
Qed.

Lemma any_tag_in_iff (wanted model_tags : list string) :
  any_tag_in wanted model_tags = true <->
  exists tag, In tag wanted /\ In tag model_tags.
Proof.
  unfold any_tag_in; rewrite existsb_exists; split.
  - intros (tag & Hin & Hex); apply existsb_exists in Hex as (t & Ht & Heq).
    apply String.eqb_eq in Heq; subst t; exists tag; auto.
  - intros (tag & Hin & Hin'); exists tag; split; [exact Hin|].
    apply existsb_exists; exists tag; split; [exact Hin'|].
    apply String.eqb_refl.
Qed.

Lemma type_test_iff (type_filter : option ModelType) (model : Model) :
  match type_filter with
  | Some t => ModelType_bool t && model_type_differs (model_type model) t
  | None => false
  end = false <->
  (forall t,
      type_filter = Some t -> ModelType_bool t = true -> model_type model = t).
Proof.
  destruct type_filter as [t|].
  - unfold model_type_differs.
    destruct (ModelType_bool t) eqn:Eb; cbn [andb].
    + destruct (ModelType_eq_dec (model_type model) t) as [Heq|Hne]; split.
      * intros _ t' H _; injection H as <-; exact Heq.
      * reflexivity.
      * discriminate.
      * intros H; exfalso; exact (Hne (H t eq_refl Eb)).
    + split; [|reflexivity].
      intros _ t' H Hb; injection H as <-; congruence.
  - split; [|reflexivity].
    intros _ t H; discriminate.
Qed.

Lemma status_test_iff (status_filter : option ModelStatus) (model : Model) :
  match status_filter with
  | Some st => ModelStatus_bool st && status_differs (status model) st
  | None => false
  end = false <->
  (forall st,
      status_filter = Some st -> ModelStatus_bool st = true ->
      status model = st).
Proof.
  destruct status_filter as [st|].
  - unfold status_differs.
    destruct (ModelStatus_bool st) eqn:Eb; cbn [andb].
    + destruct (ModelStatus_eq_dec (status model) st) as [Heq|Hne]; split.
      * intros _ st' H _; injection H as <-; exact Heq.
      * reflexivity.
      * discriminate.
      * intros H; exfalso; exact (Hne (H st eq_refl Eb)).
    + split; [|reflexivity].
      intros _ st' H Hb; injection H as <-; congruence.
  - split; [|reflexivity].
    intros _ st H; discriminate.
Qed.

Lemma tags_test_iff (tags_filter : option (list string)) (model : Model) :
  match tags_filter with
  | Some ts => list_bool ts && negb (any_tag_in ts (tags model))
  | None => false
  end = false <->
  (forall wanted,
      tags_filter = Some wanted -> wanted <> [] ->
      exists tag, In tag wanted /\ In tag (tags model)).
Proof.
  destruct tags_filter as [[|x l]|]; cbn [list_bool andb].
  - split; [|reflexivity].
    intros _ wanted H; injection H as <-; contradiction.
  - rewrite negb_false_iff, any_tag_in_iff; split.
    + intros H wanted Hw _; injection Hw as <-; exact H.
    + intros H; apply (H _ eq_refl); discriminate.
  - split; [|reflexivity].
    intros _ wanted H; discriminate.
Qed.

(** A model passes the three tests exactly when it has the type and the
    status asked for, where the member asked for is true as a Python
    value, and shares a tag with the list asked for, where that list is
    not empty. *)
Lemma search_keeps_iff (type_filter : option ModelType)
    (status_filter : option ModelStatus) (tags_filter : option (list string))
    (model : Model) :
  search_keeps type_filter status_filter tags_filter model = true <->
  (forall t,
      type_filter = Some t -> ModelType_bool t = true -> model_type model = t)
  /\ (forall st,
        status_filter = Some st -> ModelStatus_bool st = true ->
        status model = st)
  /\ (forall wanted,
        tags_filter = Some wanted -> wanted <> [] ->
        exists tag, In tag wanted /\ In tag (tags model)).
Proof.
  rewrite <- type_test_iff, <- status_test_iff, <- tags_test_iff.
  unfold search_keeps.
  destruct (match type_filter with Some _ => _ | None => _ end);
    destruct (match status_filter with Some _ => _ | None => _ end);
    destruct (match tags_filter with Some _ => _ | None => _ end);
    split; try tauto; try discriminate; intros (? & ? & ?); discriminate.
Qed.

Lemma filter_all {A : Type} (f : A -> bool) (l : list A) :
  (forall x, f x = true) -> filter f l = l.
Proof.
  intros H; induction l as [|x l IH]; simpl; [reflexivity|].
  rewrite H, IH; reflexivity.
Qed.


Lemma runtime_active_step (self : ModelService) (c : Call) :
  Forall (fun item => status (snd item) = ACTIVE) (_runtime_models self) ->
  Forall (fun item => status (snd item) = ACTIVE)
    (_runtime_models (step self c)).
Proof.
  intros IH; destruct (step_runtime self c) as [-> | ->]; [exact IH|].
  apply scan_environ_Forall; [|constructor].
  intros k v x m Hm.
  destruct (runtime_model_of_inv _ _ _ _ _ _ Hm) as (g & _ & _ & ->).
  reflexivity.
Qed.


End FurtherSearch.

(** * The further properties at work *)

Lemma registries_keyed_by_model_id_witness :
  NoDup (Dict.keys (_registered_models (run MoreCases.mixed_calls)))
  /\ exists m : Model (D := Sample.decls),
       Dict.get "m2" (_registered_models (run MoreCases.mixed_calls)) = Some m
       /\ model_id m = "m2".
Proof.
  destruct (registries_keyed_by_model_id (D := Sample.decls)
              MoreCases.mixed_calls) as (Hnodup & _ & Hreg & _).
  split; [exact Hnodup|].
  eexists; split; [reflexivity|].
  apply (Hreg "m2"); reflexivity.
Defined.

Lemma get_after_delete_witness :
  get_model_by_id [] (Sample.ticking 80) "m1"
    (snd (delete_model Sample.env_gpt4 (Sample.ticking 70) "m1"
            (run MoreCases.mixed_calls)))
  = (Return None,
     snd (delete_model Sample.env_gpt4 (Sample.ticking 70) "m1"
            (run MoreCases.mixed_calls))).
Proof.
  apply (get_after_delete (D := Sample.decls) MoreCases.mixed_calls
           Sample.env_gpt4 (Sample.ticking 70) "m1").
  reflexivity.
Defined.

Lemma runtime_entries_shape_witness :
  exists m : Model (D := Sample.decls),
    Dict.get "gpt4" (_runtime_models (run MoreCases.mixed_calls)) = Some m
    /\ base_url m <> ""
    /\ description m = "Runtime-specified model: " ++ model_name m.
Proof.
  eexists; split; [reflexivity|].
  destruct (runtime_entries_shape (D := Sample.decls) MoreCases.mixed_calls
              "gpt4" _ eq_refl) as (_ & _ & Hurl & _ & Hdesc & _).
  split; [exact Hurl|exact Hdesc].
Defined.

Lemma reload_does_not_initialize_witness :
  Dict.mem "gpt4" (_runtime_models MoreCases.reloaded_first) = true
  /\ _initialized MoreCases.reloaded_first = false
  /\ Dict.mem "gpt4"
       (_runtime_models
          (seen [] (Sample.ticking 5) MoreCases.reloaded_first)) = false.
Proof.
  destruct (reload_does_not_initialize (D := Sample.decls) Sample.env_gpt4 []
              (Sample.ticking 0) (Sample.ticking 5) __init__)
    as (Hflag & Hrescan & _).
  split; [reflexivity|].
  split; [exact Hflag|].
  unfold MoreCases.reloaded_first; rewrite (Hrescan eq_refl); reflexivity.
Defined.

Lemma get_after_register_or_update_witness :
  exists model : Model (D := Sample.decls),
    register_model Sample.env_gpt4 (Sample.ticking 60)
      (Sample.request "m3" Sample.Active) Cases.mixed
    = (Return model, MoreCases.with_m3)
    /\ get_model_by_id [] (Sample.ticking 70) "m3" MoreCases.with_m3
       = (Return (Some model), MoreCases.with_m3).
Proof.
  eexists; split; [reflexivity|].
  apply (proj1 (get_after_register_or_update (D := Sample.decls)
                  Sample.env_gpt4 (Sample.ticking 60) Cases.mixed
                  MoreCases.with_m3 _)
           (Sample.request "m3" Sample.Active)).
  reflexivity.
Defined.

Lemma delete_after_register_witness :
  delete_model [] (Sample.ticking 70) "m3" MoreCases.with_m3
  = (Return true, Cases.mixed).
Proof.
  exact (delete_after_register (D := Sample.decls) Sample.env_gpt4
           (Sample.ticking 60) (Sample.request "m3" Sample.Active)
           Cases.mixed MoreCases.with_m3 _ eq_refl [] (Sample.ticking 70)).
Defined.

Lemma raise_leaves_service_witness :
  snd (register_model Sample.env_gpt4 (Sample.ticking 60)
         (Sample.request "gpt4" Sample.Active) Cases.mixed)
  = seen Sample.env_gpt4 (Sample.ticking 60) Cases.mixed
  /\ Dict.mem "gpt4"
       (_runtime_models (seen Sample.env_gpt4 (Sample.ticking 60) Cases.mixed))
     = true.
Proof.
  destruct (raise_leaves_service (D := Sample.decls) Sample.env_gpt4
              (Sample.ticking 60) Cases.mixed (runtime_conflict "gpt4")
              (snd (register_model Sample.env_gpt4 (Sample.ticking 60)
                      (Sample.request "gpt4" Sample.Active) Cases.mixed)))
    as (Hreg & _).
  destruct (Hreg (Sample.request "gpt4" Sample.Active) eq_refl)
    as [Hsame [[He _]|[_ Hmem]]].
  - discriminate He.
  - split; [exact Hsame|exact Hmem].
Defined.

Lemma listing_after_register_witness :
  exists after : ListModelsResponse (D := Sample.decls),
    fst (get_all_models [] (Sample.ticking 70) true MoreCases.with_m3)
    = Return after
    /\ total_models after = 4.
Proof.
  destruct (listing_after_register (D := Sample.decls) Sample.env_gpt4
              (Sample.ticking 60) (Sample.request "m3" Sample.Active)
              Cases.mixed MoreCases.with_m3 _ eq_refl [] (Sample.ticking 70))
    as (before & after & Hbefore & Hafter & _ & _ & Htotal).
  exists after; split; [exact Hafter|].
  rewrite Htotal; injection Hbefore as <-; reflexivity.
Defined.

Lemma url_variable_group_names_witness :
  url_variable_group "EVAL_HUB_MODEL_GPT4_URL" = Some "GPT4".
Proof.
  apply (proj2 (url_variable_group_names "EVAL_HUB_MODEL_GPT4_URL" "GPT4")).
  - reflexivity.
  - split; [discriminate|reflexivity].
Defined.



Lemma last_url_variable_wins_witness :
  exists m : Model (D := Sample.decls),
    Dict.get "gpt4"
      (_runtime_models (seen Cases.env_two_cases (Sample.ticking 0) __init__))
    = Some m
    /\ base_url m = "http://b"
    /\ model_name m = "Foo".
Proof.
  destruct (last_url_variable_wins (D := Sample.decls) Cases.env_two_cases
              (Sample.ticking 0)
              [("EVAL_HUB_MODEL_GPT4_URL", "http://a")]
              [("EVAL_HUB_MODEL_gpt4_NAME", "Foo");
               ("EVAL_HUB_MODEL_gpt4_PATH", "/p")]
              "EVAL_HUB_MODEL_gpt4_URL" "http://b" "gpt4")
    as (m & Hget & Hurl & Hname & _).
  - reflexivity.
  - reflexivity.
  - discriminate.
  - intros v x g [H|[H|[]]] Hg; injection H as <- <-; discriminate Hg.
  - exists m; split; [exact Hget|].
    split; [exact Hurl|exact Hname].
Defined.
